(** * rocker: the build execution engine

    A shallow embedding of [src/rocker/build/build.go] (the plan executor
    [Run], the cache probe [probeCache]) and of [src/rocker/build/client.go]
    (the provisioner [EnsureContainer] and the interactive run coordinator
    [RunContainer]), followed by the properties of the specification.

    Conventions.  A Go method with a pointer receiver becomes a function that
    takes the receiver's value and returns the new one.  Interfaces ([Cache],
    [Client], [Command], the Docker API) become type classes; their
    implementations live outside the modelled files and are parameters.
    Calls to collaborators are recorded in an event list that the modelled
    function itself produces, so properties such as "Get is never called" are
    statements about that list. *)

From Stdlib Require Import ZArith Ascii.
From Stdlib Require OrderedTypeEx.
From stdpp Require Import base decidable list strings gmap sorting.

(** ** Errors *)

(** Go [error] values.  [ExtError] is an error handed back by a collaborator;
    [NoSuchContainer] and [ErrNoSuchImage] are the two errors of the Docker
    client library that client.go tells apart; the other constructors are the
    errors built with [fmt.Errorf] in the modelled files, with the formatted
    arguments kept as fields. *)
Inductive error : Type :=
  | ExtError (msg : string)
  | ErrNonTty
  | ErrAttach (containerID : string) (cause : error)
  | ErrMonitorTty (containerID : string) (cause : error)
  | ErrExitCode (containerID : string) (statusCode : Z)
  | ErrCheckImage (image : string) (cause : error)
  | ErrCreateContainer (containerName image : string) (cause : error)
  | NoSuchContainer (id : string)
  | ErrNoSuchImage.

(** A Go result [(v, err)] whose value is ignored when [err != nil]. *)
Inductive result (A : Type) : Type :=
  | Ok (a : A)
  | Err (e : error).
Arguments Ok {A} a.
Arguments Err {A} e.

(** ** Data model *)

Module docker.

(** [docker.Config]: the fields the build engine reads or writes. *)
Record Config : Type := {
  Image : string;
  Env : list string;
  Volumes : list string
}.

Record HostConfig : Type := {
  Binds : list string
}.

Record Image_ : Type := {
  ID : string;
  Size : Z;
  VirtualSize : Z
}.

Record Container : Type := {
  CID : string;
  CName : string
}.

Record CreateContainerOptions : Type := {
  Name : string;
  OptConfig : Config
}.

End docker.

(** [build.Config], the switches of one run. *)
Module BuildConfig.
Record t : Type := {
  Pull : bool;
  NoGarbage : bool;
  Attach : bool;
  Verbose : bool;
  NoCache : bool;
  ReloadCache : bool;
  Push : bool
}.
End BuildConfig.

Record StateNoCache : Type := {
  ContainerID : string;
  HostConfig : docker.HostConfig;
  CacheBusted : bool
}.

(** Modelled from the spec: the declaration of [State] (state.go is not among
    the sources).  [Config], [ImageID], [NoCache] and [InjectCommands] are the
    fields build.go and client.go use; [Commits] is the transient
    commit-intent field of section 4.2. *)
Record State : Type := {
  Config : docker.Config;
  ImageID : string;
  NoCache : StateNoCache;
  InjectCommands : list string;
  Commits : list string
}.

Definition set_CacheBusted (s : State) (v : bool) : State :=
  {| Config := Config s;
     ImageID := ImageID s;
     NoCache := {| ContainerID := ContainerID (NoCache s);
                   HostConfig := HostConfig (NoCache s);
                   CacheBusted := v |};
     InjectCommands := InjectCommands s;
     Commits := Commits s |}.

Definition set_NoCache (s : State) (nc : StateNoCache) : State :=
  {| Config := Config s;
     ImageID := ImageID s;
     NoCache := nc;
     InjectCommands := InjectCommands s;
     Commits := Commits s |}.

Definition set_InjectCommands (s : State) (q : list string) : State :=
  {| Config := Config s;
     ImageID := ImageID s;
     NoCache := NoCache s;
     InjectCommands := q;
     Commits := Commits s |}.

(** Modelled from the spec: [State.CleanCommits], "strip any transient
    commit-intent fields from the cached state" (state.go is not among the
    sources). *)
Definition CleanCommits (s : State) : State :=
  {| Config := Config s;
     ImageID := ImageID s;
     NoCache := NoCache s;
     InjectCommands := InjectCommands s;
     Commits := [] |}.

(** [int64] addition. *)
Definition wrap64 (z : Z) : Z := ((z + 2 ^ 63) mod 2 ^ 64 - 2 ^ 63)%Z.
Definition add64 (a b : Z) : Z := wrap64 (a + b)%Z.

Global Instance docker_Config_eq_dec : EqDecision docker.Config.
Proof. solve_decision. Defined.
Global Instance docker_HostConfig_eq_dec : EqDecision docker.HostConfig.
Proof. solve_decision. Defined.
Global Instance StateNoCache_eq_dec : EqDecision StateNoCache.
Proof. solve_decision. Defined.
Global Instance State_eq_dec : EqDecision State.
Proof. solve_decision. Defined.

(** ** Collaborator interfaces *)

(** The [Cache] interface as build.go uses it: [Get] answers a pointer to a
    [State] (nil when there is no entry) together with an error, [Del] is
    called through [defer].  Both may change the store. *)
Class Cache (C : Type) : Type := {
  Get : C -> State -> C * result (option State);
  Del : C -> State -> C * option error
}.

(** The part of the [Client] interface that build.go calls. *)
Class Client (E : Type) : Type := {
  InspectImage : E -> string -> E * result (option docker.Image_);
  EnsureContainer : E -> string -> docker.Config -> string -> E * (string * option error)
}.

(** Calls issued by [probeCache], in program order. *)
Inductive ProbeCall : Type :=
  | CallGet (s : State)
  | CallDel (s : State)
  | CallInspectImage (name : string).

Section BuildEngine.

Context {C E : Type} `{!Cache C} `{!Client E}.

(** [Build]; [cache = None] is the nil interface value. *)
Record Build : Type := {
  ProducedSize : Z;
  VirtualSize : Z;
  cache : option C;
  cfg : BuildConfig.t;
  client : E;
  state : State;
  exports : list string
}.

Definition set_cache (b : Build) (c : C) : Build :=
  {| ProducedSize := ProducedSize b; VirtualSize := VirtualSize b;
     cache := Some c; cfg := cfg b; client := client b;
     state := state b; exports := exports b |}.

Definition set_client (b : Build) (e : E) : Build :=
  {| ProducedSize := ProducedSize b; VirtualSize := VirtualSize b;
     cache := cache b; cfg := cfg b; client := e;
     state := state b; exports := exports b |}.

Definition set_state (b : Build) (s : State) : Build :=
  {| ProducedSize := ProducedSize b; VirtualSize := VirtualSize b;
     cache := cache b; cfg := cfg b; client := client b;
     state := s; exports := exports b |}.

Definition set_sizes (b : Build) (produced virtual : Z) : Build :=
  {| ProducedSize := produced; VirtualSize := virtual;
     cache := cache b; cfg := cfg b; client := client b;
     state := state b; exports := exports b |}.

(** What [probeCache] hands back: the calls it made, the build afterwards,
    and the Go results [(cachedState, hit, err)]. *)
Record Probe : Type := {
  probe_calls : list ProbeCall;
  probe_build : Build;
  probe_state : State;
  probe_hit : bool;
  probe_err : option error
}.

(** [func (b *Build) probeCache(s State) (cachedState State, hit bool, err error)].
    The two [defer b.cache.Del( *s2 )] run when the function returns; the
    value [Del] returns is dropped, as Go does for a deferred call. *)
Definition probeCache (b : Build) (s : State) : Probe :=
  match cache b with
  | None => Build_Probe [] b s false None
  | Some c =>
    if CacheBusted (NoCache s) then Build_Probe [] b s false None
    else
      let '(c1, got) := Get c s in
      let b1 := set_cache b c1 in
      match got with
      | Err e => Build_Probe [CallGet s] b1 s false (Some e)
      | Ok None =>
          Build_Probe [CallGet s] b1 (set_CacheBusted s true) false None
      | Ok (Some s2) =>
        if BuildConfig.ReloadCache (cfg b) then
          let '(c2, _) := Del c1 s2 in
          Build_Probe [CallGet s; CallDel s2] (set_cache b1 c2)
                      (set_CacheBusted s true) false None
        else
          let '(e1, inspected) := InspectImage (client b1) (ImageID s2) in
          let b2 := set_client b1 e1 in
          match inspected with
          | Err e =>
              Build_Probe [CallGet s; CallInspectImage (ImageID s2)] b2
                          s true (Some e)
          | Ok None =>
              let '(c2, _) := Del c1 s2 in
              Build_Probe [CallGet s; CallInspectImage (ImageID s2); CallDel s2]
                          (set_cache b2 c2) (set_CacheBusted s true) false None
          | Ok (Some img) =>
              let b3 := set_sizes b2 (add64 (ProducedSize b2) (docker.Size img))
                                  (docker.VirtualSize img) in
              Build_Probe [CallGet s; CallInspectImage (ImageID s2)] b3
                          (CleanCommits (set_NoCache s2 (NoCache s))) true None
          end
      end
  end.

(** ** The plan executor *)

(** The [Command] interface.  [ShouldRun] and [Execute] receive the build by
    pointer, so they may change it; [ReplaceEnv] is [Some] exactly when the
    step also implements [EnvReplacableCommand], and rewrites the step. *)
Class Command (Cmd : Type) : Type := {
  ShouldRun : Cmd -> Build -> Build * result bool;
  ReplaceEnv : Cmd -> option (list string -> Cmd);
  Execute : Cmd -> Build -> Build * (State * option error)
}.

Section PlanExecutor.

Context {Cmd ConfigCommand : Type} `{!Command Cmd}.

(** plan.go and the ONBUILD parser are not among the sources: the two
    functions [Run] calls on the injection queue are parameters. *)
Variable parseOnbuildCommands : list string -> result (list ConfigCommand).
Variable NewPlan : list ConfigCommand -> bool -> result (list Cmd).

(** What [Run] does with a step, in program order.  A step is named by
    the plan entry [plan[k]]; [Execute] is invoked on that entry after
    [ReplaceEnv] has rewritten it. *)
Inductive RunEvent : Type :=
  | EvShouldRun (c : Cmd) (r : result bool)
  | EvReplaceEnv (c : Cmd) (env : list string)
  | EvExecute (c : Cmd) (err : option error).

(** The type assertion [c.(EnvReplacableCommand)] and the call it guards. *)
Definition replace_env (c : Cmd) (env : list string) : Cmd * list RunEvent :=
  match ReplaceEnv c with
  | Some f => (f env, [EvReplaceEnv c env])
  | None => (c, [])
  end.

(** One pass through the body of the [for] loop: either [Run] returns
    [e], or the loop goes on, with a sub-plan to splice when the step
    injected commands. *)
Inductive Iter : Type :=
  | IterAbort (evs : list RunEvent) (b : Build) (e : error)
  | IterNext (evs : list RunEvent) (b : Build) (subPlan : option (list Cmd)).

Definition Run_iter (c : Cmd) (b : Build) : Iter :=
  let '(b1, doRun) := ShouldRun c b in
  match doRun with
  | Err e => IterAbort [EvShouldRun c (Err e)] b1 e
  | Ok false => IterNext [EvShouldRun c (Ok false)] b1 None
  | Ok true =>
    let '(c', evr) := replace_env c (docker.Env (Config (state b1))) in
    let '(b2, (s, err)) := Execute c' b1 in
    let b3 := set_state b2 s in
    let evs := EvShouldRun c (Ok true) :: evr ++ [EvExecute c err] in
    match err with
    | Some e => IterAbort evs b3 e
    | None =>
      match InjectCommands (state b3) with
      | [] => IterNext evs b3 None
      | _ :: _ =>
        match parseOnbuildCommands (InjectCommands (state b3)) with
        | Err e => IterAbort evs b3 e
        | Ok commands =>
          match NewPlan commands false with
          | Err e => IterAbort evs b3 e
          | Ok subPlan =>
            IterNext evs (set_state b3 (set_InjectCommands (state b3) []))
                     (Some subPlan)
          end
        end
      end
    end
  end.

Inductive RunOutcome : Type :=
  | Returned (err : option error)
  | OutOfFuel.

Record RunResult : Type := {
  run_events : list RunEvent;
  run_build : Build;
  run_outcome : RunOutcome
}.

Definition prepend (evs : list RunEvent) (r : RunResult) : RunResult :=
  {| run_events := evs ++ run_events r;
     run_build := run_build r;
     run_outcome := run_outcome r |}.

(** [tail := append(subPlan, plan[k+1:]...); plan = append(plan[:k+1], tail...)].
    [tail] lives in the backing array of [subPlan] or in a fresh one, never
    in that of [plan], so the second [append] reads what it is meant to. *)
Definition splice (plan : list Cmd) (k : nat) (subPlan : list Cmd) : list Cmd :=
  let tail := subPlan ++ drop (S k) plan in
  take (S k) plan ++ tail.

(** [for k := 0; k < len(plan); k++ { ... }], from index [k] on.  The
    plan can grow for ever (an injected step may inject again), hence the
    fuel: one unit per test of the loop condition. *)
Fixpoint Run_loop (fuel k : nat) (plan : list Cmd) (b : Build) : RunResult :=
  match fuel with
  | O => Build_RunResult [] b OutOfFuel
  | S fuel' =>
    match plan !! k with
    | None => Build_RunResult [] b (Returned None)
    | Some c =>
      match Run_iter c b with
      | IterAbort evs b' e => Build_RunResult evs b' (Returned (Some e))
      | IterNext evs b' None => prepend evs (Run_loop fuel' (S k) plan b')
      | IterNext evs b' (Some subPlan) =>
          prepend evs (Run_loop fuel' (S k) (splice plan k subPlan) b')
      end
    end
  end.

(** [func (b *Build) Run(plan Plan) (err error)]. *)
Definition Run (fuel : nat) (plan : list Cmd) (b : Build) : RunResult :=
  Run_loop fuel 0 plan b.

(** The steps whose [ShouldRun] was called, and those whose [Execute]
    was called, in order. *)
Definition visited (evs : list RunEvent) : list Cmd :=
  omap (fun ev => match ev with EvShouldRun c _ => Some c | _ => None end) evs.

Definition executed (evs : list RunEvent) : list Cmd :=
  omap (fun ev => match ev with EvExecute c _ => Some c | _ => None end) evs.

(** The steps whose [ShouldRun] answered [true]. *)
Definition due (evs : list RunEvent) : list Cmd :=
  omap (fun ev => match ev with EvShouldRun c (Ok true) => Some c | _ => None end) evs.

(** [cs] run one after the other from [b]: no step fails and none
    injects; a step may be skipped. *)
Fixpoint runs_quietly (cs : list Cmd) (b : Build) : option (list RunEvent * Build) :=
  match cs with
  | [] => Some ([], b)
  | c :: cs' =>
    match Run_iter c b with
    | IterNext evs b' None =>
      match runs_quietly cs' b' with
      | Some (evs', b'') => Some (evs ++ evs', b'')
      | None => None
      end
    | _ => None
    end
  end.

(** The shape of the event list of a run together with its outcome:
    one block of events per step reached, and nothing after a block
    that ends the run. *)
Definition replaced (c : Cmd) (evr : list RunEvent) : Prop :=
  evr = [] ∨ ∃ env, evr = [EvReplaceEnv c env].

Inductive run_trace : list RunEvent -> RunOutcome -> Prop :=
  | trace_done : run_trace [] (Returned None)
  | trace_out_of_fuel : run_trace [] OutOfFuel
  | trace_refused c e :
      run_trace [EvShouldRun c (Err e)] (Returned (Some e))
  | trace_skipped c t out :
      run_trace t out ->
      run_trace (EvShouldRun c (Ok false) :: t) out
  | trace_failed c evr e :
      replaced c evr ->
      run_trace (EvShouldRun c (Ok true) :: evr ++ [EvExecute c (Some e)])
                (Returned (Some e))
  | trace_bad_injection c evr e :
      replaced c evr ->
      run_trace (EvShouldRun c (Ok true) :: evr ++ [EvExecute c None])
                (Returned (Some e))
  | trace_executed c evr t out :
      replaced c evr ->
      run_trace t out ->
      run_trace (EvShouldRun c (Ok true) :: evr ++ EvExecute c None :: t) out.

(** The events of a step that lets the loop go on. *)
Definition step_block (c : Cmd) (evs : list RunEvent) : Prop :=
  evs = [EvShouldRun c (Ok false)]
  ∨ ∃ evr, replaced c evr ∧ evs = EvShouldRun c (Ok true) :: evr ++ [EvExecute c None].

(** Every way [Run_iter] can end, with the events it leaves. *)
Inductive iter_spec (c : Cmd) (b : Build) : Iter -> Prop :=
  | iter_refused b1 e :
      ShouldRun c b = (b1, Err e) ->
      iter_spec c b (IterAbort [EvShouldRun c (Err e)] b1 e)
  | iter_skipped b1 :
      ShouldRun c b = (b1, Ok false) ->
      iter_spec c b (IterNext [EvShouldRun c (Ok false)] b1 None)
  | iter_failed b1 evr b2 s e :
      ShouldRun c b = (b1, Ok true) ->
      replaced c evr ->
      iter_spec c b
        (IterAbort (EvShouldRun c (Ok true) :: evr ++ [EvExecute c (Some e)])
                   (set_state b2 s) e)
  | iter_bad_injection b1 evr b2 s e :
      ShouldRun c b = (b1, Ok true) ->
      replaced c evr ->
      InjectCommands s ≠ [] ->
      iter_spec c b
        (IterAbort (EvShouldRun c (Ok true) :: evr ++ [EvExecute c None])
                   (set_state b2 s) e)
  | iter_plain b1 evr b2 s :
      ShouldRun c b = (b1, Ok true) ->
      replaced c evr ->
      InjectCommands s = [] ->
      iter_spec c b
        (IterNext (EvShouldRun c (Ok true) :: evr ++ [EvExecute c None])
                  (set_state b2 s) None)
  | iter_injected b1 b2 s commands subPlan :
      ShouldRun c b = (b1, Ok true) ->
      Execute (fst (replace_env c (docker.Env (Config (state b1))))) b1
        = (b2, (s, None)) ->
      InjectCommands s ≠ [] ->
      parseOnbuildCommands (InjectCommands s) = Ok commands ->
      NewPlan commands false = Ok subPlan ->
      iter_spec c b
        (IterNext (EvShouldRun c (Ok true)
                     :: snd (replace_env c (docker.Env (Config (state b1))))
                     ++ [EvExecute c None])
                  (set_state (set_state b2 s) (set_InjectCommands s []))
                  (Some subPlan)).

(** The tops of the loop that [Run plan0] on [b0] passes through: the
    index [k] about to be tested against [len(plan)], the plan as spliced
    so far, the build as the steps before index [k] left it, and the
    calls made so far.  The loop gets from one top to the next exactly
    when the body neither returns nor fails, that is when [Run_iter]
    answers [IterNext]. *)
Inductive loop_state (plan0 : list Cmd) (b0 : Build)
    : nat -> list Cmd -> Build -> list RunEvent -> Prop :=
  | loop_start : loop_state plan0 b0 0 plan0 b0 []
  | loop_next k plan b evs c evs' b' inj :
      loop_state plan0 b0 k plan b evs ->
      plan !! k = Some c ->
      Run_iter c b = IterNext evs' b' inj ->
      loop_state plan0 b0 (S k)
        (match inj with
         | None => plan
         | Some subPlan => splice plan k subPlan
         end)
        b' (evs ++ evs').

End PlanExecutor.

(** ** The resource provisioner *)

Section Provisioner.

(** The naming functions are declared outside build.go; they are
    functions of the build and of the logical key. *)
Variable mountsContainerName : Build -> string -> string.
Variable exportsContainerName : Build -> string.

Definition MountVolumeImage : string := "grammarly/scratch:latest".
Definition RsyncImage : string := "grammarly/rsync-static:1".
Definition ExportsPath : string := "/.rocker_exports".

(** [func (b *Build) getVolumeContainer(path string) (name string, err error)]. *)
Definition getVolumeContainer (b : Build) (path : string)
    : Build * (string * option error) :=
  let name := mountsContainerName b path in
  let config := {| docker.Image := MountVolumeImage;
                   docker.Env := [];
                   docker.Volumes := [path] |} in
  let '(e, (_, err)) := EnsureContainer (client b) name config path in
  (set_client b e, (name, err)).

(** [func (b *Build) getExportsContainer() (name string, err error)]. *)
Definition getExportsContainer (b : Build) : Build * (string * option error) :=
  let name := exportsContainerName b in
  let config := {| docker.Image := RsyncImage;
                   docker.Env := [];
                   docker.Volumes := ["/opt/rsync/bin"; ExportsPath] |} in
  let '(e, (containerID, err)) := EnsureContainer (client b) name config "exports" in
  match err with
  | Some e' => (set_client b e, (EmptyString, Some e'))
  | None => (set_client b e, (containerID, None))
  end.

End Provisioner.

End BuildEngine.

Arguments Build : clear implicits.
Arguments Probe : clear implicits.
Arguments Command : clear implicits.
Arguments RunEvent : clear implicits.
Arguments Iter : clear implicits.
Arguments RunResult : clear implicits.

(** ** The Docker client of client.go *)

(** The remote API client [c.client] (go-dockerclient), as client.go calls
    it.  [api_PullImage] answers the error of the call and the error the
    display of the streamed messages ends with. *)
Class DockerAPI (D : Type) : Type := {
  api_InspectContainer : D -> string -> D * (option docker.Container * option error);
  api_InspectImage : D -> string -> D * (option docker.Image_ * option error);
  api_PullImage : D -> string -> D * (option error * option error);
  api_CreateContainer : D -> docker.CreateContainerOptions -> D * result docker.Container
}.

Inductive ApiCall : Type :=
  | ApiInspectContainer (name : string)
  | ApiInspectImage (name : string)
  | ApiPullImage (name : string)
  | ApiCreateContainer (opts : docker.CreateContainerOptions).

Module DockerClient.
Section Methods.

Context {D : Type} `{!DockerAPI D}.

(** [DockerClient]: the API client and the calls issued through it. *)
Record t : Type := {
api : D;
api_calls : list ApiCall
}.

Definition called (c : t) (d : D) (call : ApiCall) : t :=
{| api := d; api_calls := api_calls c ++ [call] |}.

Definition is_NoSuchContainer (err : option error) : bool :=
match err with
| Some (NoSuchContainer _) => true
| _ => false
end.

Definition is_ErrNoSuchImage (err : option error) : bool :=
match err with
| Some ErrNoSuchImage => true
| _ => false
end.

(** [func (c *DockerClient) InspectImage(name string)]: nil, not an error,
  when the image is not found. *)
Definition InspectImage (c : t) (name : string) : t * result (option docker.Image_) :=
let '(d, (img, err)) := api_InspectImage (api c) name in
let c1 := called c d (ApiInspectImage name) in
if is_ErrNoSuchImage err then (c1, Ok None)
else match err with
     | Some e => (c1, Err e)
     | None => (c1, Ok img)
     end.

(** [func (c *DockerClient) PullImage(name string) error]. *)
Definition PullImage (c : t) (name : string) : t * option error :=
let '(d, (err, displayed)) := api_PullImage (api c) name in
let c1 := called c d (ApiPullImage name) in
match err with
| Some e => (c1, Some e)
| None => (c1, displayed)
end.

(** [err != nil && err != docker.ErrNoSuchImage] and
  [_, ok := err.( *docker.NoSuchContainer); !ok && err != nil]: the error
  that makes the caller return, if any. *)
Definition other_than (tolerated : option error -> bool) (err : option error) : option error :=
match err with
| Some e => if tolerated err then None else Some e
| None => None
end.

(** [func (c *DockerClient) EnsureImage(imageName string) (err error)]. *)
Definition EnsureImage (c : t) (imageName : string) : t * option error :=
let '(d, (img, err)) := api_InspectImage (api c) imageName in
let c1 := called c d (ApiInspectImage imageName) in
match other_than is_ErrNoSuchImage err with
| Some e => (c1, Some e)
| None =>
  match img with
  | Some _ => (c1, None)
  | None => PullImage c1 imageName
  end
end.

(** [func (c *DockerClient) EnsureContainer(containerName string,
  config *docker.Config, purpose string) (containerID string, err error)].
  [purpose] is only logged. *)
Definition EnsureContainer (c : t) (containerName : string)
  (config : docker.Config) (purpose : string) : t * (string * option error) :=
let '(d, (container, err)) := api_InspectContainer (api c) containerName in
let c1 := called c d (ApiInspectContainer containerName) in
match other_than is_NoSuchContainer err with
| Some e => (c1, (EmptyString, Some e))
| None =>
  match container with
  | Some found => (c1, (docker.CID found, None))
  | None =>
    let '(c2, err2) := EnsureImage c1 (docker.Image config) in
    match err2 with
    | Some e2 => (c2, (EmptyString, Some (ErrCheckImage (docker.Image config) e2)))
    | None =>
      let opts := {| docker.Name := containerName; docker.OptConfig := config |} in
      let '(d3, created) := api_CreateContainer (api c2) opts in
      let c3 := called c2 d3 (ApiCreateContainer opts) in
      match created with
      | Err e3 =>
          (c3, (EmptyString,
                Some (ErrCreateContainer containerName (docker.Image config) e3)))
      | Ok made => (c3, (docker.CID made, None))
      end
    end
  end
end.

Definition is_create (call : ApiCall) : bool :=
match call with
| ApiCreateContainer _ => true
| _ => false
end.

(** The number of create calls in a list of calls. *)
Definition creates (calls : list ApiCall) : nat :=
length (List.filter is_create calls).

(** What the engine is relied on for: a container that an inspection by name
    has found, or that a create under that name has made, is found by the
    next inspection of that name, with the same identifier. *)
Definition finds_again : Prop :=
  ∀ (d d1 : D) name found err,
    api_InspectContainer d name = (d1, (Some found, err)) →
    other_than is_NoSuchContainer err = None →
    ∃ d2 found' err',
      api_InspectContainer d1 name = (d2, (Some found', err'))
      ∧ other_than is_NoSuchContainer err' = None
      ∧ docker.CID found' = docker.CID found.

Definition finds_created : Prop :=
  ∀ (d d1 : D) opts made,
    api_CreateContainer d opts = (d1, Ok made) →
    ∃ d2 found' err',
      api_InspectContainer d1 (docker.Name opts) = (d2, (Some found', err'))
      ∧ other_than is_NoSuchContainer err' = None
      ∧ docker.CID found' = docker.CID made.

End Methods.
End DockerClient.

Arguments DockerClient.t : clear implicits.

Global Instance DockerClient_Client {D : Type} `{!DockerAPI D} : Client (DockerClient.t D) := {
  InspectImage := DockerClient.InspectImage;
  EnsureContainer := DockerClient.EnsureContainer
}.

(** ** The interactive run coordinator *)

(** The mode of the local terminal (docker/pkg/term). *)
Inductive TermMode : Type :=
  | Cooked
  | Raw.

(** The message the [select] of [RunContainer] receives first: the result of
    [WaitContainer] relayed on [errch], the error of [AttachToContainer]
    relayed on [attacherr], or the interrupt on [sigch].  Which one it is
    depends on the schedule, so it is part of the input. *)
Inductive Fired : Type :=
  | WaitDone (statusCode : Z) (err : option error)
  | AttachFailed (cause : error)
  | Interrupt.

(** What the collaborators answer during one call of [RunContainer]. *)
Record Answers : Type := {
  set_raw : option error;
  hijacked : bool;
  start : option error;
  monitor : option error;
  fired : Fired;
  removal : option error
}.

(** The process as [RunContainer] finds it. *)
Record Host : Type := {
  stdin_is_terminal : bool;
  terminal : TermMode
}.

Definition set_terminal (h : Host) (m : TermMode) : Host :=
  {| stdin_is_terminal := stdin_is_terminal h; terminal := m |}.

Inductive CoordEvent : Type :=
  | EvSetRawTerminal
  | EvRestoreTerminal (oldState : TermMode)
  | EvAttachToContainer (containerID : string) (stdin : bool)
  | EvStartContainer (containerID : string)
  | EvMonitorTtySize (containerID : string)
  | EvNotifyInterrupt
  | EvWaitContainer (containerID : string)
  | EvFinished
  | EvRemoveContainer (containerID : string)
  | EvLogRemoveFailed (e : error)
  | EvOsExit (code : Z).

(** How a call ends: it returns, the process exits, or the caller stays
    blocked on [<-success] because the attach never reported the hijack. *)
Inductive Exit : Type :=
  | Return (err : option error)
  | OsExit (code : Z)
  | Blocked.

Record Coordination : Type := {
  coord_events : list CoordEvent;
  coord_host : Host;
  coord_exit : Exit
}.

(** The goroutine around [WaitContainer]: the first value it sends on
    [errch]. *)
Definition wait_message (containerID : string) (statusCode : Z) (err : option error)
    : option error :=
  match err with
  | Some e => Some e
  | None => if (statusCode =? 0)%Z then None else Some (ErrExitCode containerID statusCode)
  end.

(** The [select] statement. *)
Definition select (a : Answers) (containerID : string) : list CoordEvent * Exit :=
  match fired a with
  | WaitDone statusCode err =>
      ([EvFinished], Return (wait_message containerID statusCode err))
  | AttachFailed cause => ([], Return (Some (ErrAttach containerID cause)))
  | Interrupt =>
      let logged := match removal a with
                    | Some e => [EvLogRemoveFailed e]
                    | None => []
                    end in
      (EvRemoveContainer containerID :: logged ++ [EvOsExit 2%Z], OsExit 2%Z)
  end.

(** [RunContainer] from the start of the attach goroutine to the end of the
    function body. *)
Definition attach_start_wait (a : Answers) (containerID : string) (attachStdin : bool)
    : list CoordEvent * Exit :=
  let attach := EvAttachToContainer containerID attachStdin in
  if negb (hijacked a) then ([attach], Blocked)
  else
    match start a with
    | Some e => ([attach; EvStartContainer containerID], Return (Some e))
    | None =>
      let monitored :=
        if attachStdin then [EvMonitorTtySize containerID] else [] in
      match (if attachStdin then monitor a else None) with
      | Some e =>
          ([attach; EvStartContainer containerID] ++ monitored,
           Return (Some (ErrMonitorTty containerID e)))
      | None =>
          let '(evs, exit) := select a containerID in
          ([attach; EvStartContainer containerID] ++ monitored
             ++ [EvNotifyInterrupt; EvWaitContainer containerID] ++ evs,
           exit)
      end
    end.

(** Deferred calls run when the function returns.  [os.Exit] ends the process
    at once, without running deferred functions, and a blocked call never
    reaches its return. *)
Definition run_deferred (deferred : option TermMode) (exit : Exit) (h : Host)
    : list CoordEvent * Host :=
  match exit, deferred with
  | Return _, Some oldState => ([EvRestoreTerminal oldState], set_terminal h oldState)
  | _, _ => ([], h)
  end.

(** [func (c *DockerClient) RunContainer(containerID string, attachStdin bool) error]. *)
Definition RunContainer (h : Host) (a : Answers) (containerID : string)
    (attachStdin : bool) : Coordination :=
  if attachStdin && negb (stdin_is_terminal h) then
    Build_Coordination [] h (Return (Some ErrNonTty))
  else if attachStdin then
    match set_raw a with
    | Some e => Build_Coordination [EvSetRawTerminal] h (Return (Some e))
    | None =>
      let oldState := terminal h in
      let h1 := set_terminal h Raw in
      let '(evs, exit) := attach_start_wait a containerID attachStdin in
      let '(restored, h2) := run_deferred (Some oldState) exit h1 in
      Build_Coordination (EvSetRawTerminal :: evs ++ restored) h2 exit
    end
  else
    let '(evs, exit) := attach_start_wait a containerID attachStdin in
    let '(restored, h2) := run_deferred None exit h in
    Build_Coordination (evs ++ restored) h2 exit.

(** ** Reference collaborators

    Small implementations of the interfaces, used to run the engine on
    concrete inputs. *)

Module Fixture.

(** The [State] with its no-cache sub-record blanked: what a fingerprint is
    computed from. *)
Definition blank : StateNoCache :=
  {| ContainerID := EmptyString; HostConfig := {| docker.Binds := [] |}; CacheBusted := false |}.

Definition fingerprint (s : State) : State := set_NoCache s blank.

(** Modelled from the spec: the cache store (cache.go is not among the
    sources), "key→state lookup/eviction keyed by a fingerprint of build
    state".  An entry pairs the fingerprint of the state a step started
    from with the snapshot the step produced; on a read-only store [Del]
    fails and removes nothing. *)
Record MemCache : Type := {
  entries : list (State * State);
  read_only : bool
}.

Definition MemCache_Get (c : MemCache) (s : State) : MemCache * result (option State) :=
  (c, Ok (snd <$> List.find (fun kv => bool_decide (fst kv = fingerprint s)) (entries c))).

Definition MemCache_Del (c : MemCache) (e : State) : MemCache * option error :=
  if read_only c then (c, Some (ExtError "read-only file system"))
  else ({| entries := List.filter (fun kv => negb (bool_decide (snd kv = e))) (entries c);
           read_only := false |}, None).

Global Instance MemCache_Cache : Cache MemCache := {
  Get := MemCache_Get;
  Del := MemCache_Del
}.

(** A Docker daemon: its images, its containers, looked up by name. *)
Record Daemon : Type := {
  images : list docker.Image_;
  containers : list docker.Container
}.

Definition find_container (d : Daemon) (name : string) : option docker.Container :=
  List.find (fun c => String.eqb (docker.CName c) name) (containers d).

Definition find_image (d : Daemon) (name : string) : option docker.Image_ :=
  List.find (fun i => String.eqb (docker.ID i) name) (images d).

Definition Daemon_InspectContainer (d : Daemon) (name : string)
    : Daemon * (option docker.Container * option error) :=
  match find_container d name with
  | Some c => (d, (Some c, None))
  | None => (d, (None, Some (NoSuchContainer name)))
  end.

Definition Daemon_InspectImage (d : Daemon) (name : string)
    : Daemon * (option docker.Image_ * option error) :=
  match find_image d name with
  | Some i => (d, (Some i, None))
  | None => (d, (None, Some ErrNoSuchImage))
  end.

Definition Daemon_PullImage (d : Daemon) (name : string)
    : Daemon * (option error * option error) :=
  ({| images := images d ++ [{| docker.ID := name; docker.Size := 0%Z; docker.VirtualSize := 0%Z |}];
      containers := containers d |}, (None, None)).

Definition Daemon_CreateContainer (d : Daemon) (opts : docker.CreateContainerOptions)
    : Daemon * result docker.Container :=
  match find_container d (docker.Name opts) with
  | Some _ => (d, Err (ExtError "name already in use"))
  | None =>
    let made := {| docker.CID := String.append "id-" (docker.Name opts);
                   docker.CName := docker.Name opts |} in
    ({| images := images d; containers := containers d ++ [made] |}, Ok made)
  end.

Global Instance Daemon_DockerAPI : DockerAPI Daemon := {
  api_InspectContainer := Daemon_InspectContainer;
  api_InspectImage := Daemon_InspectImage;
  api_PullImage := Daemon_PullImage;
  api_CreateContainer := Daemon_CreateContainer
}.

Definition B : Type := Build MemCache (DockerClient.t Daemon).

(** Steps of a plan. *)
Inductive Step : Type :=
  | StepEnv (kv : string)
  | StepFrom (image : string) (onbuild : list string)
  | StepRun (cmd : string)
  | StepNoop
  | StepGuarded (msg : string)
  | StepFail (msg : string).

Definition with_state (b : B) (f : State -> State) : B * (State * option error) :=
  (b, (f (state b), None)).

Definition Step_ShouldRun (c : Step) (b : B) : B * result bool :=
  match c with
  | StepNoop => (b, Ok false)
  | StepGuarded msg => (b, Err (ExtError msg))
  | _ => (b, Ok true)
  end.

Definition Step_ReplaceEnv (c : Step) : option (list string -> Step) :=
  match c with
  | StepRun cmd => Some (fun env => StepRun (String.concat " " (env ++ [cmd])))
  | _ => None
  end.

Definition Step_Execute (c : Step) (b : B) : B * (State * option error) :=
  match c with
  | StepEnv kv =>
      with_state b (fun s =>
        {| Config := {| docker.Image := docker.Image (Config s);
                        docker.Env := docker.Env (Config s) ++ [kv];
                        docker.Volumes := docker.Volumes (Config s) |};
           ImageID := ImageID s; NoCache := NoCache s;
           InjectCommands := InjectCommands s; Commits := Commits s |})
  | StepFrom image onbuild =>
      with_state b (fun s =>
        {| Config := Config s; ImageID := image; NoCache := NoCache s;
           InjectCommands := onbuild; Commits := Commits s |})
  | StepRun cmd =>
      with_state b (fun s =>
        {| Config := Config s; ImageID := ImageID s; NoCache := NoCache s;
           InjectCommands := InjectCommands s; Commits := Commits s ++ [cmd] |})
  | StepNoop => with_state b (fun s => s)
  | StepGuarded _ => with_state b (fun s => s)
  | StepFail msg => (b, (state b, Some (ExtError msg)))
  end.

Global Instance Step_Command : Command MemCache (DockerClient.t Daemon) Step := {
  ShouldRun := Step_ShouldRun;
  ReplaceEnv := Step_ReplaceEnv;
  Execute := Step_Execute
}.

Definition parseOnbuildCommands (q : list string) : result (list string) :=
  if bool_decide (EmptyString ∈ q) then Err (ExtError "empty ONBUILD instruction") else Ok q.

Definition NewPlan (commands : list string) (finalCleanup : bool) : result (list Step) :=
  Ok (StepRun <$> commands).

Definition state0 : State :=
  {| Config := {| docker.Image := EmptyString; docker.Env := []; docker.Volumes := [] |};
     ImageID := EmptyString;
     NoCache := blank;
     InjectCommands := [];
     Commits := [] |}.

(** A state a cacheable step starts from, and the snapshot a former run
    stored for it. *)
Definition before : State :=
  {| Config := Config state0; ImageID := "sha256:base";
     NoCache := {| ContainerID := "c0ffee"; HostConfig := {| docker.Binds := ["/src:/src"] |};
                   CacheBusted := false |};
     InjectCommands := []; Commits := ["RUN make"] |}.

Definition cached : State :=
  {| Config := Config state0; ImageID := "sha256:made";
     NoCache := blank;
     InjectCommands := []; Commits := ["RUN make"] |}.

Definition store (ro : bool) : MemCache :=
  {| entries := [(fingerprint before, cached)]; read_only := ro |}.

Definition daemon0 : Daemon :=
  {| images := [{| docker.ID := "sha256:made"; docker.Size := 10%Z; docker.VirtualSize := 30%Z |}];
     containers := [] |}.

Definition build0 (c : option MemCache) (reload : bool) : B :=
  {| ProducedSize := 0%Z; VirtualSize := 0%Z;
     cache := c;
     cfg := {| BuildConfig.Pull := false; BuildConfig.NoGarbage := false;
               BuildConfig.Attach := false; BuildConfig.Verbose := false;
               BuildConfig.NoCache := false; BuildConfig.ReloadCache := reload;
               BuildConfig.Push := false |};
     client := {| DockerClient.api := daemon0; DockerClient.api_calls := [] |};
     state := state0;
     exports := [] |}.

Definition tty : Host := {| stdin_is_terminal := true; terminal := Cooked |}.
Definition pipe : Host := {| stdin_is_terminal := false; terminal := Cooked |}.

Definition answers (f : Fired) (rm : option error) : Answers :=
  {| set_raw := None; hijacked := true; start := None; monitor := None;
     fired := f; removal := rm |}.

End Fixture.

(** ** Build variables (the template package) *)

Module template.

(** The values a [Vars] map holds (Go's [interface{}]): a string, a slice
    with the name of its type, or anything else, given by what [%s] prints
    for it. *)
#[local] Unset Elimination Schemes.
Inductive Value : Type :=
  | VString (s : string)
  | VSlice (type : string) (items : list Value)
  | VOther (rendered : string).
#[local] Set Elimination Schemes.

(** [type Vars map[string]interface{}]; the receiver of a method is a map
    that has been made, not nil. *)
Abbreviation Vars := (gmap string Value).

(** What [fmt.Sprintf("%s", v)] prints. *)
Fixpoint format_s (v : Value) : string :=
  match v with
  | VString s => s
  | VSlice _ items =>
      String.append "[" (String.append (String.concat " " (map format_s items)) "]")
  | VOther rendered => rendered
  end.

(** The body of the inner loop of [Merge]: slices of one type are appended,
    anything else is overwritten. *)
Definition merge_value (old : option Value) (v : Value) : Value :=
  match old, v with
  | Some (VSlice t1 items1), VSlice t2 items2 =>
      if String.eqb t1 t2 then VSlice t1 (items1 ++ items2) else v
  | _, _ => v
  end.

(** The error values of the package: an error of the operating system, and
    the one [VarsFromStrings] builds around it. *)
Inductive Error : Type :=
  | OsError (msg : string)
  | ReadVarError (file key : string) (cause : Error).

Inductive Result (A : Type) : Type :=
  | Success (a : A)
  | Failure (e : Error).
Arguments Success {A} a.
Arguments Failure {A} e.

(** A call either returns or panics. *)
Inductive Outcome (A : Type) : Type :=
  | Done (a : A)
  | Panic.
Arguments Done {A} a.
Arguments Panic {A}.

(** [strings.SplitN(s, "=", 2)]. *)
Fixpoint cut (s : string) : option (string * string) :=
  match s with
  | EmptyString => None
  | String ch rest =>
      if Ascii.eqb ch "="%char then Some (EmptyString, rest)
      else match cut rest with
           | Some (before, after) => Some (String ch before, after)
           | None => None
           end
  end.

Definition SplitN2 (s : string) : list string :=
  match cut s with
  | Some (before, after) => [before; after]
  | None => [s]
  end.

(** [func ParseKvPairs(pairs []string) (vars Vars)], from the map built so
    far.  [tmp[1]] panics when the pair has no [=]. *)
Fixpoint ParseKvPairs_from (vars : Vars) (pairs : list string) : Outcome Vars :=
  match pairs with
  | [] => Done vars
  | varPair :: rest =>
      let tmp := SplitN2 varPair in
      match tmp !! 0%nat, tmp !! 1%nat with
      | Some key, Some value => ParseKvPairs_from (<[key := VString value]> vars) rest
      | _, _ => Panic
      end
  end.

Definition ParseKvPairs (pairs : list string) : Outcome Vars :=
  ParseKvPairs_from ∅ pairs.

(** [func (vars Vars) IsSet(key string) bool]. *)
Definition IsSet (vars : Vars) (key : string) : bool :=
  match vars !! key with
  | Some _ => true
  | None => false
  end.

(** The order of Go strings: byte by byte. *)
Definition string_le (s1 s2 : string) : Prop := String.leb s1 s2 = true.

Global Instance string_le_dec (s1 s2 : string) : Decision (string_le s1 s2).
Proof. unfold string_le. apply _. Defined.

(** [func containsWildcards(name string) bool]. *)
Fixpoint containsWildcards (name : string) : bool :=
  match name with
  | EmptyString => false
  | String ch rest =>
      if Ascii.eqb ch "\"%char then
        match rest with
        | EmptyString => false
        | String _ rest' => containsWildcards rest'
        end
      else if Ascii.eqb ch "*"%char || Ascii.eqb ch "?"%char || Ascii.eqb ch "["%char
      then true
      else containsWildcards rest
  end.

(** The characters [containsWildcards] looks for. *)
Definition is_wildcard (ch : ascii) : bool :=
  Ascii.eqb ch "*"%char || Ascii.eqb ch "?"%char || Ascii.eqb ch "["%char.

Fixpoint has_char (p : ascii -> bool) (s : string) : bool :=
  match s with
  | EmptyString => false
  | String ch rest => p ch || has_char p rest
  end.

(** [strings.Contains(s, "=")]. *)
Definition has_eq (s : string) : bool :=
  has_char (fun ch => Ascii.eqb ch "="%char) s.

(** [fmt.Sprintf("%s=%s", k, v)]. *)
Definition entry_string (kv : string * Value) : string :=
  String.append (fst kv) (String.append "=" (format_s (snd kv))).

(** What [ParseKvPairs] reads in a pair that has an [=] sign. *)
Definition parse_pair (p : string) : option (string * Value) :=
  match cut p with
  | Some (before, after) => Some (before, VString after)
  | None => None
  end.

Section Ranging.

(** The order in which [range] walks a map is not specified: it is a
    parameter, any listing of the entries of the map. *)
Variable range : Vars -> list (string * Value).

(** [func (vars Vars) Merge(varsList ...Vars) Vars], one map of the list. *)
Definition Merge_with (vars mergeWith : Vars) : Vars :=
  foldl (fun acc kv => <[fst kv := merge_value (acc !! fst kv) (snd kv)]> acc)
        vars (range mergeWith).

Definition Merge (vars : Vars) (varsList : list Vars) : Vars :=
  foldl Merge_with vars varsList.

(** [func (vars Vars) ToStrings() (result []string)]. *)
Definition ToStrings (vars : Vars) : list string :=
  merge_sort string_le (entry_string <$> range vars).

(** The operating system, as [resolveFileName] and [loadFileContent] use
    it: [os.Getenv("HOME")], [os.Getwd], [path.Join], [ioutil.ReadFile]. *)
Variable HOME : string.
Variable Getwd : Result string.
Variable Join : string -> string -> string.
Variable ReadFile : string -> Result string.

(** [strings.Replace(s, "~", new, 1)]. *)
Fixpoint replace_first_tilde (new s : string) : string :=
  match s with
  | EmptyString => EmptyString
  | String ch rest =>
      if Ascii.eqb ch "~"%char then String.append new rest
      else String ch (replace_first_tilde new rest)
  end.

(** [filepath.IsAbs] on a Unix system. *)
Definition IsAbs (f : string) : bool := String.prefix "/" f.

(** [func resolveFileName(f string) (string, error)]. *)
Definition resolveFileName (f : string) : Result string :=
  let f1 := if String.eqb f "~" || String.prefix "~/" f
            then replace_first_tilde HOME f else f in
  if negb (IsAbs f1) then
    match Getwd with
    | Failure e => Failure e
    | Success wd => Success (Join wd f1)
    end
  else Success f1.

(** [func loadFileContent(f string) (content string, err error)]. *)
Definition loadFileContent (f : string) : Result string :=
  match resolveFileName f with
  | Failure e => Failure e
  | Success f1 =>
    match ReadFile f1 with
    | Failure e => Failure e
    | Success data => Success data
    end
  end.

(** [v[1:]] for a string that is not empty. *)
Definition tail1 (v : string) : string :=
  match v with
  | EmptyString => EmptyString
  | String _ rest => rest
  end.

(** The loop of [VarsFromStrings] over the entries [kvs].  A failed load
    has already stored the empty content under the key when the function
    returns. *)
Fixpoint load_entries (vars : Vars) (kvs : list (string * Value))
    : Vars * option Error :=
  match kvs with
  | [] => (vars, None)
  | (k, VString v) :: rest =>
      let loaded :=
        if String.prefix "@" v then
          match loadFileContent (tail1 v) with
          | Failure e =>
              (<[k := VString EmptyString]> vars, Some (ReadVarError (tail1 v) k e))
          | Success content => (<[k := VString content]> vars, None)
          end
        else (vars, None) in
      match loaded with
      | (vars1, Some e) => (vars1, Some e)
      | (vars1, None) =>
          let vars2 := if String.prefix "\@" v
                       then <[k := VString (tail1 v)]> vars1 else vars1 in
          load_entries vars2 rest
      end
  | (_, _) :: rest => load_entries vars rest
  end.

(** [func VarsFromStrings(pairs []string) (vars Vars, err error)]. *)
Definition VarsFromStrings (pairs : list string) : Outcome (Vars * option Error) :=
  match ParseKvPairs pairs with
  | Panic => Panic
  | Done vars => Done (load_entries vars (range vars))
  end.

(** What [VarsFromStrings] makes of one value when every load succeeds. *)
Definition loaded_value (v : Value) : Result Value :=
  match v with
  | VString s =>
      if String.prefix "@" s then
        match loadFileContent (tail1 s) with
        | Failure e => Failure e
        | Success content => Success (VString content)
        end
      else if String.prefix "\@" s then Success (VString (tail1 s))
      else Success v
  | _ => Success v
  end.

End Ranging.

End template.

(** ** The command line (cmd/rocker/main.go) *)

Module rocker_main.

(** [strings.Split(s, ":")] and [strings.Contains(s, ":")]. *)
Fixpoint Split_colon (s : string) : list string :=
  match s with
  | EmptyString => [EmptyString]
  | String ch rest =>
      if Ascii.eqb ch ":"%char then EmptyString :: Split_colon rest
      else match Split_colon rest with
           | field :: fields => String ch field :: fields
           | [] => [String ch EmptyString]
           end
  end.

Definition Contains_colon (s : string) : bool :=
  template.has_char (fun ch => Ascii.eqb ch ":"%char) s.

Record AuthConfiguration : Type := {
  Username : string;
  Password : string
}.

(** The reading of the [--auth] parameter in [buildCommand]; indexing
    [userPass] cannot fail, [Split] on a string that contains the separator
    gives two fields at least. *)
Definition auth_of_param (authParam : string) : AuthConfiguration :=
  if Contains_colon authParam then
    let userPass := Split_colon authParam in
    {| Username := default EmptyString (userPass !! 0%nat);
       Password := default EmptyString (userPass !! 1%nat) |}
  else {| Username := EmptyString; Password := EmptyString |}.

End rocker_main.

(** ** More reference collaborators *)

Module Samples.

(** An engine that cannot be reached. *)
Inductive Offline : Type := offline.

Global Instance Offline_Client : Client Offline := {
  InspectImage := fun e _ => (e, Err (ExtError "connection refused"));
  EnsureContainer := fun e _ _ _ => (e, (EmptyString, Some (ExtError "connection refused")))
}.

Definition offline_build : Build Fixture.MemCache Offline :=
  {| ProducedSize := 0%Z; VirtualSize := 0%Z;
     cache := Some (Fixture.store false);
     cfg := cfg (Fixture.build0 None false);
     client := offline;
     state := Fixture.state0;
     exports := [] |}.

(** A daemon that has lost the image the cache entry refers to. *)
Definition pruned : Fixture.Daemon :=
  {| Fixture.images := []; Fixture.containers := [] |}.

Definition pruned_build : Fixture.B :=
  {| ProducedSize := 7%Z; VirtualSize := 9%Z;
     cache := Some (Fixture.store false);
     cfg := cfg (Fixture.build0 None false);
     client := {| DockerClient.api := pruned; DockerClient.api_calls := [] |};
     state := Fixture.state0;
     exports := [] |}.

(** Naming of the auxiliary containers. *)
Definition mount_name (b : Fixture.B) (path : string) : string :=
  String.append "rocker_mount_" path.

Definition exports_name (b : Fixture.B) : string := "rocker_exports_1f3a".

(** A state that an earlier miss has busted. *)
Definition busted : State := set_CacheBusted Fixture.before true.

(** Variables given on the command line, and a file system with one file. *)
Definition token_vars : template.Vars :=
  {[ "TOKEN" := template.VString "@/etc/token" ]}.

Definition one_file (path : string) : template.Result string :=
  if String.eqb path "/etc/token" then template.Success "s3cret"
  else template.Failure (template.OsError "no such file or directory").

Definition no_file (path : string) : template.Result string :=
  template.Failure (template.OsError "no such file or directory").

Definition cwd : template.Result string := template.Success "/work".

Definition join (dir name : string) : string :=
  String.append dir (String.append "/" name).

Definition walk (m : template.Vars) : list (string * template.Value) :=
  map_to_list m.

Definition tags : template.Vars :=
  {[ "tags" := template.VSlice "[]string" [template.VString "a"] ]}.

Definition more_tags : template.Vars :=
  {[ "tags" := template.VSlice "[]string" [template.VString "b"] ]}.

Definition version_vars : template.Vars :=
  {[ "version" := template.VString "1.2=rc" ]}.

End Samples.

(** * Properties *)

(** ** The cache probe *)

Section ProbeProperties.

Context {C E : Type} `{!Cache C} `{!Client E}.

Implicit Types (b : Build C E) (s : State).

(** A probe that does not reach the store: no store configured, or the
    state is already busted. *)
Lemma probeCache_short_circuit b s :
  cache b = None ∨ CacheBusted (NoCache s) = true →
  probeCache b s = Build_Probe [] b s false None.
Proof.
  unfold probeCache. intros [Hnone | Hbusted].
  - rewrite Hnone. reflexivity.
  - rewrite Hbusted. destruct (cache b); reflexivity.
Qed.

(** C2. Sticky cache bust.  With no cache store, or with [CacheBusted]
    already set on the state, [probeCache] returns the state it was given
    with [hit = false] and no error, leaves the build as it is and makes no
    call at all (so [Get] is not called).  When the store has no entry for
    the state, the state returned is the input with [CacheBusted] set,
    [hit] is false, and probing that state again, on any build, answers
    [hit = false] without a call to the store. *)
Theorem probeCache_sticky_bust b s :
  (cache b = None ∨ CacheBusted (NoCache s) = true →
     probeCache b s = Build_Probe [] b s false None)
  ∧ (∀ c c1,
       cache b = Some c →
       CacheBusted (NoCache s) = false →
       Get c s = (c1, Ok None) →
       probe_state (probeCache b s) = set_CacheBusted s true
       ∧ CacheBusted (NoCache (probe_state (probeCache b s))) = true
       ∧ probe_hit (probeCache b s) = false
       ∧ probe_err (probeCache b s) = None
       ∧ probe_calls (probeCache b s) = [CallGet s]
       ∧ ∀ b' : Build C E,
           probeCache b' (probe_state (probeCache b s))
           = Build_Probe [] b' (probe_state (probeCache b s)) false None).
Proof.
  split; [apply probeCache_short_circuit |].
  intros c c1 Hc Hfresh Hget.
  assert (Hp : probeCache b s
               = Build_Probe [CallGet s] (set_cache b c1)
                             (set_CacheBusted s true) false None).
  { unfold probeCache. rewrite Hc, Hfresh, Hget. reflexivity. }
  rewrite Hp. cbn [probe_state probe_hit probe_err probe_calls].
  repeat split.
  intros b'. apply probeCache_short_circuit. right. reflexivity.
Qed.

(** C3. Cache-hit postcondition.  On a genuine hit (the store answers a
    cached state, reload mode is off, the engine still has the image)
    [probeCache] returns [hit = true] and no error; the state returned is
    the cached one in its cacheable fields, carries the input state's
    [NoCache] record, and has no commit intent left. *)
Theorem probeCache_hit_postcondition b s c c1 s2 e1 img :
  cache b = Some c →
  CacheBusted (NoCache s) = false →
  Get c s = (c1, Ok (Some s2)) →
  BuildConfig.ReloadCache (cfg b) = false →
  InspectImage (client b) (ImageID s2) = (e1, Ok (Some img)) →
  probe_hit (probeCache b s) = true
  ∧ probe_err (probeCache b s) = None
  ∧ NoCache (probe_state (probeCache b s)) = NoCache s
  ∧ Commits (probe_state (probeCache b s)) = []
  ∧ Config (probe_state (probeCache b s)) = Config s2
  ∧ ImageID (probe_state (probeCache b s)) = ImageID s2
  ∧ InjectCommands (probe_state (probeCache b s)) = InjectCommands s2.
Proof.
  intros Hc Hfresh Hget Hreload Himg.
  unfold probeCache. rewrite Hc, Hfresh, Hget, Hreload. cbn [set_cache client].
  rewrite Himg. cbn. repeat split.
Qed.

(** C5, as the code has it.  An error of [Get] is returned to the caller,
    with the input state and [hit = false].  What [Del] answers is dropped:
    whenever the probe calls [Del], in the reload branch or for a stale
    image, it returns no error, [hit = false] and the input state with
    [CacheBusted] set. *)
Theorem probeCache_cache_errors b s :
  (∀ c c1 e,
     cache b = Some c →
     CacheBusted (NoCache s) = false →
     Get c s = (c1, Err e) →
     probe_err (probeCache b s) = Some e
     ∧ probe_state (probeCache b s) = s
     ∧ probe_hit (probeCache b s) = false)
  ∧ (∀ s2,
       CallDel s2 ∈ probe_calls (probeCache b s) →
       probe_err (probeCache b s) = None
       ∧ probe_hit (probeCache b s) = false
       ∧ probe_state (probeCache b s) = set_CacheBusted s true).
Proof.
  split.
  - intros c c1 e Hc Hfresh Hget.
    unfold probeCache. rewrite Hc, Hfresh, Hget. repeat split.
  - intros s2. unfold probeCache.
    destruct (cache b) as [c |]; [| cbn; intros Hin; inversion Hin].
    destruct (CacheBusted (NoCache s)); [cbn; intros Hin; inversion Hin |].
    destruct (Get c s) as [c1 [[found |] | e]]; cbn.
    + destruct (BuildConfig.ReloadCache (cfg b)).
      * destruct (Del c1 found). cbn. intros _. repeat split.
      * destruct (InspectImage (client b) (ImageID found)) as [e1 [[img |] | e]].
        -- cbn. intros Hin. repeat (apply elem_of_cons in Hin as [Heq | Hin]; [discriminate |]).
           inversion Hin.
        -- destruct (Del c1 found). cbn. intros _. repeat split.
        -- cbn. intros Hin. repeat (apply elem_of_cons in Hin as [Heq | Hin]; [discriminate |]).
           inversion Hin.
    + intros Hin. repeat (apply elem_of_cons in Hin as [Heq | Hin]; [discriminate |]).
      inversion Hin.
    + intros Hin. repeat (apply elem_of_cons in Hin as [Heq | Hin]; [discriminate |]).
      inversion Hin.
Qed.

(** C6. Reload-cache semantics.  When the lookup hits and the run is in
    reload mode, [probeCache] calls [Del] on the entry found, right after
    [Get] and nothing else; the store of the build afterwards is the one
    [Del] leaves, whatever [Del] answers; the state returned is the input
    with [CacheBusted] set; [hit] is false and there is no error, also when
    [Del] answers one.  When [Del] answers no error, on a store whose
    successful [Del] evicts the entry it is given, no lookup answers the
    old entry afterwards; nothing of the kind holds when [Del] fails. *)
Theorem probeCache_reload b s c c1 s2 c2 derr :
  cache b = Some c →
  CacheBusted (NoCache s) = false →
  Get c s = (c1, Ok (Some s2)) →
  BuildConfig.ReloadCache (cfg b) = true →
  Del c1 s2 = (c2, derr) →
  probe_calls (probeCache b s) = [CallGet s; CallDel s2]
  ∧ cache (probe_build (probeCache b s)) = Some c2
  ∧ probe_state (probeCache b s) = set_CacheBusted s true
  ∧ CacheBusted (NoCache (probe_state (probeCache b s))) = true
  ∧ probe_hit (probeCache b s) = false
  ∧ probe_err (probeCache b s) = None
  ∧ (derr = None →
     (∀ (st st' : C) (e : State), Del st e = (st', None) →
        ∀ k, snd (Get st' k) ≠ Ok (Some e)) →
     ∀ k, snd (Get c2 k) ≠ Ok (Some s2)).
Proof.
  intros Hc Hfresh Hget Hreload Hdel.
  unfold probeCache. rewrite Hc, Hfresh, Hget, Hreload, Hdel. cbn.
  split_and!; try reflexivity.
  intros -> Hevicts k. exact (Hevicts c1 c2 s2 Hdel k).
Qed.

End ProbeProperties.

(** ** The plan executor *)

Section RunProperties.

Context {C E : Type} `{!Cache C} `{!Client E}.
Context {Cmd ConfigCommand : Type} `{!Command C E Cmd}.
Variable parseOnbuildCommands : list string -> result (list ConfigCommand).
Variable NewPlan : list ConfigCommand -> bool -> result (list Cmd).

Local Abbreviation iter := (Run_iter parseOnbuildCommands NewPlan).
Local Abbreviation loop := (Run_loop parseOnbuildCommands NewPlan).
Local Abbreviation run := (Run parseOnbuildCommands NewPlan).
Local Abbreviation quietly := (runs_quietly parseOnbuildCommands NewPlan).
Local Abbreviation iter_spec := (iter_spec parseOnbuildCommands NewPlan).
Local Abbreviation reached := (loop_state parseOnbuildCommands NewPlan).

Implicit Types (b : Build C E) (c : Cmd) (plan cs : list Cmd)
  (evs : list (RunEvent Cmd)).

Lemma prepend_nil (r : RunResult C E Cmd) : prepend [] r = r.
Proof. destruct r. reflexivity. Qed.

Lemma prepend_prepend evs1 evs2 (r : RunResult C E Cmd) :
  prepend evs1 (prepend evs2 r) = prepend (evs1 ++ evs2) r.
Proof. unfold prepend. cbn. rewrite app_assoc. reflexivity. Qed.

Lemma replace_env_replaced c env : replaced c (snd (replace_env c env)).
Proof.
  unfold replace_env, replaced. destruct (ReplaceEnv c); cbn; eauto.
Qed.

Lemma Run_iter_spec c b : iter_spec c b (iter c b).
Proof.
  unfold Run_iter.
  destruct (ShouldRun c b) as [b1 [[|] | e]] eqn:Hshould;
    [| by apply iter_skipped | by apply iter_refused].
  pose proof (replace_env_replaced c (docker.Env (Config (state b1)))) as Hrep.
  destruct (replace_env c (docker.Env (Config (state b1)))) as [c' evr] eqn:Henv.
  cbn [fst snd] in *.
  destruct (Execute c' b1) as [b2 [s [e |]]] eqn:Hexec.
  { by eapply iter_failed. }
  cbn [state set_state].
  destruct (InjectCommands s) as [| i q] eqn:Hq.
  { by eapply iter_plain. }
  destruct (parseOnbuildCommands (i :: q)) as [commands | e] eqn:Hparse.
  2: { eapply iter_bad_injection; [done | done |]. by rewrite Hq. }
  destruct (NewPlan commands false) as [subPlan | e] eqn:Hplan.
  2: { eapply iter_bad_injection; [done | done |]. by rewrite Hq. }
  replace evr with (snd (replace_env c (docker.Env (Config (state b1)))))
    by (by rewrite Henv).
  eapply iter_injected; rewrite ?Henv, ?Hq; cbn; try done.
Qed.

(** The events of a run always have the shape [run_trace]. *)
Lemma Run_loop_trace fuel : ∀ k plan b,
  run_trace (run_events (loop fuel k plan b)) (run_outcome (loop fuel k plan b)).
Proof.
  induction fuel as [| fuel IH]; intros k plan b; cbn; [constructor |].
  destruct (plan !! k) as [c |]; [| constructor].
  destruct (Run_iter_spec c b) as
    [b1 e _ | b1 _ | b1 evr b2 s e _ Hr | b1 evr b2 s e _ Hr _
     | b1 evr b2 s _ Hr _ | b1 b2 s commands subPlan _ _ _ _ _]; cbn.
  - constructor.
  - apply trace_skipped, IH.
  - by apply trace_failed.
  - by apply trace_bad_injection.
  - rewrite <- app_assoc. cbn. apply trace_executed; [done | apply IH].
  - rewrite <- app_assoc. cbn.
    apply trace_executed; [apply replace_env_replaced | apply IH].
Qed.

(** Case analysis on where an event sits in a block of known events. *)
Ltac split_trace :=
  repeat match goal with
  | H : _ :: _ = ?pre ++ _ :: _ |- _ =>
      destruct pre as [| ? pre]; cbn in H; simplify_eq
  | H : [] = ?pre ++ _ :: _ |- _ =>
      destruct pre; cbn in H; discriminate H
  end.

Ltac by_blocks Hr :=
  try (destruct Hr as [-> | [? ->]]); cbn in *; split_trace; eauto.

Lemma run_trace_refused evs out :
  run_trace evs out →
  ∀ pre c e post, evs = pre ++ EvShouldRun c (Err e) :: post →
  post = [] ∧ out = Returned (Some e).
Proof.
  induction 1 as [| | c0 e0 | c0 t out _ IH | c0 evr e0 Hr | c0 evr e0 Hr
                  | c0 evr t out Hr _ IH]; intros pre c e post Heq;
    by_blocks Hr.
Qed.

Lemma run_trace_failed evs out :
  run_trace evs out →
  ∀ pre c e post, evs = pre ++ EvExecute c (Some e) :: post →
  post = [] ∧ out = Returned (Some e).
Proof.
  induction 1 as [| | c0 e0 | c0 t out _ IH | c0 evr e0 Hr | c0 evr e0 Hr
                  | c0 evr t out Hr _ IH]; intros pre c e post Heq;
    by_blocks Hr.
Qed.

Lemma run_trace_skipped evs out :
  run_trace evs out →
  ∀ pre c post, evs = pre ++ EvShouldRun c (Ok false) :: post →
  post = [] ∨ ∃ c' r post', post = EvShouldRun c' r :: post'.
Proof.
  induction 1 as [| | c0 e0 | c0 t out Ht IH | c0 evr e0 Hr | c0 evr e0 Hr
                  | c0 evr t out Hr _ IH]; intros pre c post Heq;
    by_blocks Hr.
  inversion Ht; subst; eauto.
Qed.

Lemma run_trace_replace_env evs out :
  run_trace evs out →
  ∀ pre c env post, evs = pre ++ EvReplaceEnv c env :: post →
  ∃ pre', pre = pre' ++ [EvShouldRun c (Ok true)].
Proof.
  induction 1 as [| | c0 e0 | c0 t out _ IH | c0 evr e0 Hr | c0 evr e0 Hr
                  | c0 evr t out Hr _ IH]; intros pre c env post Heq;
    by_blocks Hr;
    try (by exists []);
    destruct (IH _ _ _ _ eq_refl) as [pre' ->];
    eexists; rewrite !app_comm_cons; reflexivity.
Qed.

Lemma run_trace_execute evs out :
  run_trace evs out →
  ∀ pre c err post, evs = pre ++ EvExecute c err :: post →
  ∃ pre' evr, pre = pre' ++ EvShouldRun c (Ok true) :: evr ∧ replaced c evr.
Proof.
  induction 1 as [| | c0 e0 | c0 t out _ IH | c0 evr e0 Hr | c0 evr e0 Hr
                  | c0 evr t out Hr _ IH]; intros pre c err post Heq;
    by_blocks Hr;
    try (exists [], []; split; [reflexivity | by left]);
    try (eexists [], [_]; split; [reflexivity | right; eauto]);
    destruct (IH _ _ _ _ eq_refl) as (pre' & evr' & -> & Hr');
    eexists _, evr'; (split; [| exact Hr']); rewrite !app_comm_cons; reflexivity.
Qed.

(** A top of the loop that is reached is where [Run] is, once the calls
    made on the way are set aside: with [fuel] tests of the loop condition
    left there, [Run] answers what the loop answers from there. *)
Lemma loop_state_Run plan0 b0 k plan b evs :
  reached plan0 b0 k plan b evs →
  ∀ fuel, run (k + fuel) plan0 b0 = prepend evs (loop fuel k plan b).
Proof.
  induction 1 as [| k plan b evs c evs' b' inj _ IH Hk Hiter]; intros fuel.
  - unfold Run. rewrite prepend_nil. reflexivity.
  - replace (S k + fuel) with (k + S fuel) by lia.
    rewrite IH. cbn [Run_loop]. rewrite Hk, Hiter.
    destruct inj as [subPlan |]; rewrite prepend_prepend; reflexivity.
Qed.

(** C4. Abort-and-skip semantics of the executor.  Let the loop of [Run]
    have got to step [c = plan[k]] with build [b], having made the calls
    [evs], and let there be fuel to test the loop condition there.
    - If [ShouldRun c] answers an error, [Run] returns that error; the
      calls it made are [evs] and that [ShouldRun], so neither [ReplaceEnv]
      nor [Execute] is called on [c], and no later step is looked at.
    - If [ShouldRun c] answers [false], [Run] goes on with step [k+1] of
      the same plan from the build [ShouldRun] left: nothing is called on
      [c] but [ShouldRun], and the state is not assigned.
    - If [ShouldRun c] answers [true], [Execute] is called, on the step as
      [ReplaceEnv] rewrote it, and the calls of [Run] go on with it; if it
      answers an error, [Run] returns that error, with the state [Execute]
      returned assigned to the build, and [Execute] is the last call.
    In the calls of any run, moreover: a [ShouldRun] that answers an error
    is the last call and [Run] returns that error; after a [ShouldRun] that
    answers [false] the next call, if any, is the [ShouldRun] of the next
    step; an [Execute] that answers an error is the last call and [Run]
    returns that error; and [ReplaceEnv] and [Execute] are only ever called
    on a step right after its own [ShouldRun] answered [true]. *)
Theorem Run_abort_and_skip (fuel : nat) plan0 b0 :
  let r := run fuel plan0 b0 in
  (∀ k plan b evs c b1,
     reached plan0 b0 k plan b evs →
     plan !! k = Some c →
     k < fuel →
     (∀ e, ShouldRun c b = (b1, Err e) →
        r = {| run_events := evs ++ [EvShouldRun c (Err e)];
               run_build := b1;
               run_outcome := Returned (Some e) |})
     ∧ (ShouldRun c b = (b1, Ok false) →
        r = prepend (evs ++ [EvShouldRun c (Ok false)])
                    (loop (fuel - S k) (S k) plan b1))
     ∧ (∀ b2 s err,
          ShouldRun c b = (b1, Ok true) →
          Execute (fst (replace_env c (docker.Env (Config (state b1))))) b1
            = (b2, (s, err)) →
          (∃ rest,
             run_events r
             = evs ++ EvShouldRun c (Ok true)
                   :: snd (replace_env c (docker.Env (Config (state b1))))
                   ++ EvExecute c err :: rest)
          ∧ ∀ e, err = Some e →
              r = {| run_events :=
                       evs ++ EvShouldRun c (Ok true)
                           :: snd (replace_env c (docker.Env (Config (state b1))))
                           ++ [EvExecute c (Some e)];
                     run_build := set_state b2 s;
                     run_outcome := Returned (Some e) |}))
  ∧ (∀ pre c e post,
       run_events r = pre ++ EvShouldRun c (Err e) :: post →
       post = [] ∧ run_outcome r = Returned (Some e))
  ∧ (∀ pre c post,
       run_events r = pre ++ EvShouldRun c (Ok false) :: post →
       post = [] ∨ ∃ c' a post', post = EvShouldRun c' a :: post')
  ∧ (∀ pre c e post,
       run_events r = pre ++ EvExecute c (Some e) :: post →
       post = [] ∧ run_outcome r = Returned (Some e))
  ∧ (∀ pre c env post,
       run_events r = pre ++ EvReplaceEnv c env :: post →
       ∃ pre', pre = pre' ++ [EvShouldRun c (Ok true)])
  ∧ (∀ pre c err post,
       run_events r = pre ++ EvExecute c err :: post →
       ∃ pre' evr, pre = pre' ++ EvShouldRun c (Ok true) :: evr ∧ replaced c evr).
Proof.
  intros r. pose proof (Run_loop_trace fuel 0 plan0 b0) as Ht. fold r in Ht.
  refine (conj _ (conj _ (conj _ (conj _ (conj _ _))))).
  - intros k plan b evs c b1 Hreach Hk Hfuel.
    assert (r = prepend evs (loop (S (fuel - S k)) k plan b)) as Hr.
    { unfold r. rewrite <- (loop_state_Run _ _ _ _ _ _ Hreach). f_equal. lia. }
    cbn [Run_loop] in Hr. rewrite Hk in Hr. unfold Run_iter in Hr.
    refine (conj _ (conj _ _)).
    + intros e Hshould. rewrite Hshould in Hr. exact Hr.
    + intros Hshould. rewrite Hshould in Hr. rewrite prepend_prepend in Hr. exact Hr.
    + intros b2 s err Hshould Hexec. rewrite Hshould in Hr.
      destruct (replace_env c (docker.Env (Config (state b1)))) as [c' evr].
      cbn [fst snd] in *. rewrite Hexec in Hr.
      split.
      * assert (∀ rest, evs ++ (EvShouldRun c (Ok true) :: evr ++ [EvExecute c err]) ++ rest
                        = evs ++ EvShouldRun c (Ok true) :: evr ++ EvExecute c err :: rest)
          as Hblock.
        { intros rest. cbn [app]. rewrite <- app_assoc. reflexivity. }
        rewrite Hr. clear Hr.
        destruct err as [e |];
          [| destruct (InjectCommands (state (set_state b2 s))) as [| q qs];
             [| destruct (parseOnbuildCommands (q :: qs)) as [commands | e];
                [destruct (NewPlan commands false) as [subPlan | e] |]]];
          cbn [prepend run_events];
          first [ eexists; apply Hblock
                | exists []; rewrite <- Hblock, app_nil_r; reflexivity ].
      * intros e ->. exact Hr.
  - exact (run_trace_refused _ _ Ht).
  - exact (run_trace_skipped _ _ Ht).
  - exact (run_trace_failed _ _ Ht).
  - exact (run_trace_replace_env _ _ Ht).
  - exact (run_trace_execute _ _ Ht).
Qed.

(** *** Splicing *)

Lemma visited_app evs1 evs2 : visited (evs1 ++ evs2) = visited evs1 ++ visited evs2.
Proof. apply omap_app. Qed.

Lemma executed_app evs1 evs2 : executed (evs1 ++ evs2) = executed evs1 ++ executed evs2.
Proof. apply omap_app. Qed.

Lemma due_app evs1 evs2 : due (evs1 ++ evs2) = due evs1 ++ due evs2.
Proof. apply omap_app. Qed.

Lemma Run_iter_next_block c b evs b' inj :
  iter c b = IterNext evs b' inj → step_block c evs.
Proof.
  intros Hi. pose proof (Run_iter_spec c b) as Hs. rewrite Hi in Hs.
  inversion Hs; subst; unfold step_block.
  - by left.
  - right. eauto.
  - right. eexists. split; [apply replace_env_replaced | reflexivity].
Qed.

Lemma step_block_lists c evs :
  step_block c evs →
  visited evs = [c]
  ∧ executed evs = due evs
  ∧ ((∀ c', EvShouldRun c' (Ok false) ∉ evs) → executed evs = [c]).
Proof.
  unfold step_block.
  intros [-> | (evr & [-> | [env ->]] & ->)]; cbn; repeat split; try done.
  intros Hno. exfalso. apply (Hno c). left.
Qed.

Lemma runs_quietly_lists cs : ∀ b evs b',
  quietly cs b = Some (evs, b') →
  visited evs = cs
  ∧ executed evs = due evs
  ∧ ((∀ c', EvShouldRun c' (Ok false) ∉ evs) → executed evs = cs).
Proof.
  induction cs as [| c cs IH]; intros b evs b' Hq; cbn in Hq.
  - by simplify_eq.
  - destruct (iter c b) as [| evs0 b0 [|]] eqn:Hi; try discriminate.
    destruct (quietly cs b0) as [[evs1 b1] |] eqn:Hq1; simplify_eq.
    destruct (step_block_lists c evs0 (Run_iter_next_block _ _ _ _ _ Hi))
      as (Hv & Hx & Hall).
    destruct (IH _ _ _ Hq1) as (Hv1 & Hx1 & Hall1).
    rewrite visited_app, executed_app, due_app, Hv, Hx, Hx1, Hv1.
    repeat split.
    intros Hno. rewrite <- Hx, <- Hx1, Hall, Hall1; [done | |];
      intros c' Hin; apply (Hno c'), elem_of_app; eauto.
Qed.

(** A quiet stretch of the plan is walked step by step. *)
Lemma Run_loop_quiet cs : ∀ pre post b evs b' (fuel : nat),
  quietly cs b = Some (evs, b') →
  loop (length cs + fuel) (length pre) (pre ++ cs ++ post) b
  = prepend evs (loop fuel (length pre + length cs) (pre ++ cs ++ post) b').
Proof.
  induction cs as [| c cs IH]; intros pre post b evs b' fuel Hq; cbn in Hq.
  - simplify_eq. cbn. by rewrite Nat.add_0_r, prepend_nil.
  - destruct (iter c b) as [| evs0 b0 [|]] eqn:Hi; try discriminate.
    destruct (quietly cs b0) as [[evs1 b1] |] eqn:Hq1; simplify_eq.
    cbn [length Nat.add Run_loop app].
    rewrite list_lookup_middle by done. rewrite Hi.
    specialize (IH (pre ++ [c]) post b0 evs1 b' fuel Hq1).
    rewrite length_app in IH. cbn [length] in IH.
    rewrite <- !app_assoc in IH. cbn [app] in IH.
    replace (length pre + 1) with (S (length pre)) in IH by lia.
    rewrite IH, prepend_prepend.
    by replace (S (length pre) + length cs) with (length pre + S (length cs)) by lia.
Qed.

(** The step that injects: what [Run_iter] makes of it. *)
Lemma Run_iter_injects c b b1 b2 s commands sub :
  ShouldRun c b = (b1, Ok true) →
  Execute (fst (replace_env c (docker.Env (Config (state b1))))) b1 = (b2, (s, None)) →
  InjectCommands s ≠ [] →
  parseOnbuildCommands (InjectCommands s) = Ok commands →
  NewPlan commands false = Ok sub →
  iter c b
  = IterNext (EvShouldRun c (Ok true)
                :: snd (replace_env c (docker.Env (Config (state b1))))
                ++ [EvExecute c None])
             (set_state b2 (set_InjectCommands s []))
             (Some sub).
Proof.
  intros Hshould Hexec Hq Hparse Hplan. unfold Run_iter. rewrite Hshould.
  destruct (replace_env c (docker.Env (Config (state b1)))) as [c' evr].
  cbn [fst snd] in *. rewrite Hexec. cbn [state set_state].
  destruct (InjectCommands s) as [| i q] eqn:Hs; [done |].
  rewrite Hparse, Hplan. reflexivity.
Qed.

(** C1. Injection splice.  Take a plan whose step [k] is executed and leaves
    a state with a non-empty injection queue, from which
    [parseOnbuildCommands] and [NewPlan] make the sub-plan [sub]; let the
    steps before [k], the steps of [sub] and the steps after [k] each run
    without failing and without injecting.  Then [Run], given more fuel than
    there are steps, returns no error, and the steps it visits are, in
    order and once each, steps [0..k] of the plan, the steps of [sub], then
    steps [k+1..] of the plan.  The steps executed are those visited whose
    [ShouldRun] answered [true]: all of them when no step is skipped.  The
    pass through the loop body for step [k] hands over the sub-plan together
    with a build whose injection queue is empty, and the sub-plan runs from
    that build. *)
Theorem Run_splices_injected_commands
    (fuel k : nat) plan c sub (commands : list ConfigCommand)
    b0 b1 b1' b2 b3 b4 (s : State) ev0 ev2 ev3 :
  plan !! k = Some c →
  quietly (take k plan) b0 = Some (ev0, b1) →
  ShouldRun c b1 = (b1', Ok true) →
  Execute (fst (replace_env c (docker.Env (Config (state b1'))))) b1' = (b2, (s, None)) →
  InjectCommands s ≠ [] →
  parseOnbuildCommands (InjectCommands s) = Ok commands →
  NewPlan commands false = Ok sub →
  quietly sub (set_state b2 (set_InjectCommands s [])) = Some (ev2, b3) →
  quietly (drop (S k) plan) b3 = Some (ev3, b4) →
  length plan + length sub < fuel →
  let r := run fuel plan b0 in
  run_outcome r = Returned None
  ∧ run_build r = b4
  ∧ visited (run_events r) = take (S k) plan ++ sub ++ drop (S k) plan
  ∧ executed (run_events r) = due (run_events r)
  ∧ ((∀ c', EvShouldRun c' (Ok false) ∉ run_events r) →
       executed (run_events r) = take (S k) plan ++ sub ++ drop (S k) plan)
  ∧ ∃ evk bk,
      iter c b1 = IterNext evk bk (Some sub)
      ∧ InjectCommands (state bk) = []
      ∧ quietly sub bk = Some (ev2, b3)
      ∧ run_events r = ev0 ++ evk ++ ev2 ++ ev3
      ∧ executed evk = [c].
Proof.
  intros Hk Hq0 Hshould Hexec Hinj Hparse Hplan Hq2 Hq3 Hfuel r.
  pose proof (Run_iter_injects _ _ _ _ _ _ _ Hshould Hexec Hinj Hparse Hplan) as Hi.
  set (evk := EvShouldRun c (Ok true)
                :: snd (replace_env c (docker.Env (Config (state b1'))))
                ++ [EvExecute c None]) in *.
  set (bk := set_state b2 (set_InjectCommands s [])) in *.
  assert (Hlen : k < length plan) by (by eapply lookup_lt_Some).
  assert (Hr : r = {| run_events := ev0 ++ evk ++ ev2 ++ ev3;
                      run_build := b4;
                      run_outcome := Returned None |}).
  { subst r. unfold Run.
    (* steps 0..k-1 *)
    pose proof (Run_loop_quiet (take k plan) [] (c :: drop (S k) plan) b0 ev0 b1
                  (fuel - k) Hq0) as H0.
    rewrite length_take_le in H0 by lia. cbn [app length Nat.add] in H0.
    rewrite take_drop_middle in H0 by done.
    replace (k + (fuel - k)) with fuel in H0 by lia. rewrite H0. clear H0.
    (* step k *)
    destruct (fuel - k) as [| f1] eqn:Hf1; [lia |].
    cbn [Run_loop]. rewrite Hk, Hi. unfold splice.
    (* the sub-plan *)
    pose proof (Run_loop_quiet sub (take (S k) plan) (drop (S k) plan) bk ev2 b3
                  (f1 - length sub) Hq2) as H2.
    rewrite length_take_le in H2 by lia.
    replace (length sub + (f1 - length sub)) with f1 in H2 by lia.
    rewrite H2. clear H2.
    (* steps k+1.. *)
    pose proof (Run_loop_quiet (drop (S k) plan) (take (S k) plan ++ sub) [] b3 ev3 b4
                  (f1 - length sub - length (drop (S k) plan)) Hq3) as H3.
    rewrite app_nil_r, <- app_assoc, length_app, length_take_le in H3 by lia.
    rewrite length_drop in *.
    replace (length plan - S k + (f1 - length sub - (length plan - S k)))
      with (f1 - length sub) in H3 by lia.
    rewrite H3. clear H3.
    (* the loop condition fails *)
    destruct (f1 - length sub - (length plan - S k)) as [| f2] eqn:Hf2; [lia |].
    cbn [Run_loop].
    rewrite lookup_ge_None_2.
    2: { rewrite !length_app, length_take_le, length_drop by lia. lia. }
    unfold prepend. cbn. by rewrite app_nil_r. }
  destruct (runs_quietly_lists _ _ _ _ Hq0) as (Hv0 & Hx0 & Hall0).
  destruct (runs_quietly_lists _ _ _ _ Hq2) as (Hv2 & Hx2 & Hall2).
  destruct (runs_quietly_lists _ _ _ _ Hq3) as (Hv3 & Hx3 & Hall3).
  destruct (step_block_lists c evk (Run_iter_next_block _ _ _ _ _ Hi))
    as (Hvk & Hxk & Hallk).
  assert (Hexk : executed evk = [c]).
  { apply Hallk. intros c' Hin. subst evk.
    apply elem_of_cons in Hin as [Heq | Hin]; [discriminate |].
    apply elem_of_app in Hin as [Hin | Hin].
    - destruct (replace_env_replaced c (docker.Env (Config (state b1'))))
        as [Hnil | [env Henv]]; rewrite ?Hnil, ?Henv in Hin.
      + inversion Hin.
      + apply list_elem_of_singleton in Hin. discriminate.
    - apply list_elem_of_singleton in Hin. discriminate. }
  assert (Htake : take (S k) plan = take k plan ++ [c]) by (by apply take_S_r).
  rewrite Hr. cbn [run_events run_build run_outcome].
  rewrite !visited_app, !executed_app, !due_app, Hv0, Hvk, Hv2, Hv3, Hx0, Hxk, Hx2, Hx3.
  rewrite Htake, <- !app_assoc. cbn [app].
  refine (conj eq_refl (conj eq_refl (conj eq_refl (conj eq_refl (conj _ _))))).
  - intros Hno. rewrite <- Hx0, <- Hx2, <- Hx3, <- Hxk, Hexk, Hall0, Hall2, Hall3; [done | | |];
      intros c' Hin; apply (Hno c'); rewrite !elem_of_app; eauto.
  - exists evk, bk. repeat split; done.
Qed.

End RunProperties.

(** ** The resource provisioner *)

Section EnsureContainerProperties.

Context {D : Type} `{!DockerAPI D}.

Implicit Types (c : DockerClient.t D) (config : docker.Config).

Lemma EnsureContainer_found c name config purpose d1 found err :
  api_InspectContainer (DockerClient.api c) name = (d1, (Some found, err)) →
  DockerClient.other_than DockerClient.is_NoSuchContainer err = None →
  DockerClient.EnsureContainer c name config purpose
  = (DockerClient.called c d1 (ApiInspectContainer name), (docker.CID found, None)).
Proof.
  intros Hinspect Hbenign. unfold DockerClient.EnsureContainer.
  rewrite Hinspect, Hbenign. reflexivity.
Qed.

Lemma creates_app (l1 l2 : list ApiCall) :
  DockerClient.creates (l1 ++ l2) = DockerClient.creates l1 + DockerClient.creates l2.
Proof.
  unfold DockerClient.creates. by rewrite List.filter_app, length_app.
Qed.

Lemma EnsureImage_calls c image c1 err :
  DockerClient.EnsureImage c image = (c1, err) →
  ∃ calls, DockerClient.api_calls c1 = DockerClient.api_calls c ++ calls
           ∧ DockerClient.creates calls = 0.
Proof.
  unfold DockerClient.EnsureImage, DockerClient.PullImage.
  destruct (api_InspectImage (DockerClient.api c) image) as [d [img e]].
  destruct (DockerClient.other_than DockerClient.is_ErrNoSuchImage e).
  { intros [= <- <-]. by exists [ApiInspectImage image]. }
  destruct img.
  { intros [= <- <-]. by exists [ApiInspectImage image]. }
  cbn. destruct (api_PullImage d image) as [d' [e1 e2]].
  destruct e1; intros [= <- <-];
    exists [ApiInspectImage image; ApiPullImage image]; cbn;
    by rewrite <- app_assoc.
Qed.

(** What a call that succeeds leaves behind: the next inspection of the name
    finds a container with the identifier returned, and at most one create
    was issued. *)
Lemma EnsureContainer_success c name config purpose c1 id :
  DockerClient.finds_again → DockerClient.finds_created →
  DockerClient.EnsureContainer c name config purpose = (c1, (id, None)) →
  (∃ d2 found err,
     api_InspectContainer (DockerClient.api c1) name = (d2, (Some found, err))
     ∧ DockerClient.other_than DockerClient.is_NoSuchContainer err = None
     ∧ docker.CID found = id)
  ∧ ∃ calls, DockerClient.api_calls c1 = DockerClient.api_calls c ++ calls
             ∧ DockerClient.creates calls ≤ 1.
Proof.
  intros Hagain Hcreated. unfold DockerClient.EnsureContainer.
  destruct (api_InspectContainer (DockerClient.api c) name) as [d [found err]] eqn:Hinspect.
  destruct (DockerClient.other_than DockerClient.is_NoSuchContainer err) eqn:Hbenign;
    [discriminate |].
  destruct found as [found |].
  - intros [= <- <-]. split.
    + exact (Hagain _ _ _ _ _ Hinspect Hbenign).
    + exists [ApiInspectContainer name]. split; [reflexivity | cbn; lia].
  - destruct (DockerClient.EnsureImage _ (docker.Image config)) as [c2 err2] eqn:Himage.
    destruct err2; [discriminate |].
    destruct (api_CreateContainer (DockerClient.api c2) _) as [d3 [made | e3]] eqn:Hcreate;
      [| discriminate].
    intros [= <- <-]. split.
    + exact (Hcreated _ _ _ _ Hcreate).
    + destruct (EnsureImage_calls _ _ _ _ Himage) as (calls & Hcalls & Hnone).
      cbn in Hcalls. cbn [DockerClient.called DockerClient.api_calls].
      rewrite Hcalls, <- !app_assoc. eexists. split; [reflexivity |].
      rewrite !creates_app, Hnone. cbn. lia.
Qed.

(** C7. Ensure-container idempotency.  When the inspection by name finds a
    container (with no error, or with the not-found error the code
    tolerates), [EnsureContainer] returns that container's identifier and
    issues the inspection and nothing else, so no create.  Hence, on an
    engine that finds again what it has found or created under a name, a
    call that succeeds is followed by a second call, with the same name,
    that returns the same identifier and issues no create; at most one
    create is issued over the two calls. *)
Theorem EnsureContainer_idempotent c name config purpose :
  (∀ d1 found err,
     api_InspectContainer (DockerClient.api c) name = (d1, (Some found, err)) →
     DockerClient.other_than DockerClient.is_NoSuchContainer err = None →
     DockerClient.EnsureContainer c name config purpose
     = ({| DockerClient.api := d1;
           DockerClient.api_calls := DockerClient.api_calls c ++ [ApiInspectContainer name] |},
        (docker.CID found, None)))
  ∧ (DockerClient.finds_again → DockerClient.finds_created →
     ∀ c1 id config' purpose',
       DockerClient.EnsureContainer c name config purpose = (c1, (id, None)) →
       ∃ c2 calls1,
         DockerClient.EnsureContainer c1 name config' purpose' = (c2, (id, None))
         ∧ DockerClient.api_calls c1 = DockerClient.api_calls c ++ calls1
         ∧ DockerClient.api_calls c2
           = DockerClient.api_calls c1 ++ [ApiInspectContainer name]
         ∧ DockerClient.creates calls1 ≤ 1
         ∧ DockerClient.creates (calls1 ++ [ApiInspectContainer name]) ≤ 1).
Proof.
  split.
  - intros d1 found err. apply EnsureContainer_found.
  - intros Hagain Hcreated c1 id config' purpose' Hfirst.
    destruct (EnsureContainer_success _ _ _ _ _ _ Hagain Hcreated Hfirst)
      as ((d2 & found & err & Hinspect & Hbenign & Hid) & calls1 & Hcalls & Hle).
    eexists _, calls1.
    rewrite (EnsureContainer_found c1 name config' purpose' _ _ _ Hinspect Hbenign).
    rewrite Hid. repeat split; [exact Hcalls | exact Hle |].
    rewrite creates_app. cbn. lia.
Qed.

End EnsureContainerProperties.

(** ** The interactive run coordinator *)

Section RunContainerProperties.

Implicit Types (h : Host) (a : Answers) (containerID : string).

(** The call reaches its [select]: the terminal checks pass, the attach
    reports the hijack, the container starts, the size monitor is set up. *)
Lemma RunContainer_reaches_select h a containerID attachStdin :
  (attachStdin = true →
     stdin_is_terminal h = true ∧ set_raw a = None ∧ monitor a = None) →
  hijacked a = true →
  start a = None →
  ∃ pre deferred h1,
    RunContainer h a containerID attachStdin
    = Build_Coordination
        (pre ++ [EvNotifyInterrupt; EvWaitContainer containerID]
           ++ fst (select a containerID)
           ++ fst (run_deferred deferred (snd (select a containerID)) h1))
        (snd (run_deferred deferred (snd (select a containerID)) h1))
        (snd (select a containerID))
    ∧ deferred = (if attachStdin then Some (terminal h) else None)
    ∧ h1 = (if attachStdin then set_terminal h Raw else h).
Proof.
  intros Hattach Hhijacked Hstart. unfold RunContainer, attach_start_wait.
  rewrite Hhijacked, Hstart. cbn [negb].
  destruct attachStdin.
  - destruct (Hattach eq_refl) as (-> & -> & ->). cbn [andb negb].
    exists [EvSetRawTerminal; EvAttachToContainer containerID true;
            EvStartContainer containerID; EvMonitorTtySize containerID],
           (Some (terminal h)), (set_terminal h Raw).
    split; [| split; reflexivity].
    destruct (select a containerID) as [evs exit]. cbn [fst snd].
    destruct (run_deferred (Some (terminal h)) exit (set_terminal h Raw)) as [restored h2].
    cbn. rewrite <- ?app_assoc. reflexivity.
  - cbn [andb].
    exists [EvAttachToContainer containerID false; EvStartContainer containerID],
           None, h.
    split; [| split; reflexivity].
    destruct (select a containerID) as [evs exit]. cbn [fst snd].
    destruct (run_deferred None exit h) as [restored h2].
    cbn. rewrite <- ?app_assoc. reflexivity.
Qed.

(** C9. Interrupt handling.  When the call has reached its [select] and the
    interrupt is what the [select] receives, the removal of the container is
    attempted, a failure of the removal is logged and nothing more, and the
    process exits with status 2 right after: the call does not return, so no
    error, of the attach or other, is reported to the build. *)
Theorem RunContainer_interrupt h a containerID attachStdin :
  (attachStdin = true →
     stdin_is_terminal h = true ∧ set_raw a = None ∧ monitor a = None) →
  hijacked a = true →
  start a = None →
  fired a = Interrupt →
  coord_exit (RunContainer h a containerID attachStdin) = OsExit 2%Z
  ∧ (∀ err, coord_exit (RunContainer h a containerID attachStdin) ≠ Return err)
  ∧ ∃ pre,
      coord_events (RunContainer h a containerID attachStdin)
      = pre ++ [EvNotifyInterrupt; EvWaitContainer containerID]
            ++ EvRemoveContainer containerID
            :: match removal a with
               | Some e => [EvLogRemoveFailed e]
               | None => []
               end
            ++ [EvOsExit 2%Z].
Proof.
  intros Hattach Hhijacked Hstart Hfired.
  destruct (RunContainer_reaches_select h a containerID attachStdin
              Hattach Hhijacked Hstart) as (pre & deferred & h1 & -> & _ & _).
  unfold select. rewrite Hfired. cbn [fst snd coord_exit coord_events].
  split; [reflexivity |]. split; [discriminate |].
  exists pre. destruct deferred; cbn; by rewrite app_nil_r.
Qed.

(** C10. Attaching needs a terminal.  With [attachStdin] set and a standard
    input that is not a terminal, [RunContainer] returns the error at once:
    no call at all has been made (no raw mode, no attach, no start) and the
    host is as it was. *)
Theorem RunContainer_non_tty h a containerID :
  stdin_is_terminal h = false →
  RunContainer h a containerID true
  = Build_Coordination [] h (Return (Some ErrNonTty)).
Proof.
  intros Hpipe. unfold RunContainer. rewrite Hpipe. reflexivity.
Qed.

(** Whenever a call that put the terminal in raw mode returns, it has
    restored the mode it found, as its last action. *)
Lemma RunContainer_restores_on_return h a containerID err :
  stdin_is_terminal h = true →
  set_raw a = None →
  coord_exit (RunContainer h a containerID true) = Return err →
  terminal (coord_host (RunContainer h a containerID true)) = terminal h
  ∧ ∃ evs, coord_events (RunContainer h a containerID true)
           = evs ++ [EvRestoreTerminal (terminal h)].
Proof.
  intros Htty Hraw. unfold RunContainer. rewrite Htty, Hraw. cbn [andb negb].
  destruct (attach_start_wait a containerID true) as [evs exit].
  destruct exit as [err' | code |]; cbn; try discriminate.
  intros _. split; [reflexivity |]. by exists (EvSetRawTerminal :: evs).
Qed.

(** C8, the failing path.  On a terminal, with input attached, an interrupt
    received while the container runs ends the process with status 2; the
    call to [RestoreTerminal] that was deferred is never made and the
    terminal stays in raw mode. *)
Theorem RunContainer_interrupt_leaves_terminal_raw :
  terminal Fixture.tty = Cooked
  ∧ RunContainer Fixture.tty (Fixture.answers Interrupt None) "4f5e6d7c8b9a" true
    = Build_Coordination
        [EvSetRawTerminal;
         EvAttachToContainer "4f5e6d7c8b9a" true;
         EvStartContainer "4f5e6d7c8b9a";
         EvMonitorTtySize "4f5e6d7c8b9a";
         EvNotifyInterrupt;
         EvWaitContainer "4f5e6d7c8b9a";
         EvRemoveContainer "4f5e6d7c8b9a";
         EvOsExit 2%Z]
        {| stdin_is_terminal := true; terminal := Raw |}
        (OsExit 2%Z).
Proof. split; reflexivity. Qed.

End RunContainerProperties.

(** * Worked examples

    The engine run on the reference collaborators. *)

Section Examples.

Import Fixture.

Local Abbreviation run := (Run parseOnbuildCommands NewPlan).
Local Abbreviation onbuild_plan :=
  [StepEnv "A=1"; StepFrom "base" ["RUN x"; "RUN y"]; StepNoop; StepRun "z"].

(** The reference store honours the eviction contract. *)
Lemma MemCache_Del_evicts (st st' : MemCache) (e : State) :
  Del st e = (st', None) → ∀ k, snd (Get st' k) ≠ Ok (Some e).
Proof.
  cbn. unfold MemCache_Del, MemCache_Get.
  destruct (read_only st); [discriminate |].
  intros [= <-] k. cbn. intros [= Hfound].
  destruct (List.find _ _) as [[key value] |] eqn:Hfind; [| discriminate].
  cbn in Hfound. simplify_eq.
  apply List.find_some in Hfind as [Hin _].
  apply List.filter_In in Hin as [_ Hkept]. cbn in Hkept.
  by rewrite bool_decide_eq_true_2 in Hkept.
Qed.

Lemma find_container_app (d : Daemon) (made : docker.Container) (name : string) :
  find_container d name = None →
  docker.CName made = name →
  find_container {| images := images d; containers := containers d ++ [made] |} name
  = Some made.
Proof.
  unfold find_container. cbn. intros Hnone Hname.
  induction (containers d) as [| c l IH]; cbn in *.
  - by rewrite Hname, String.eqb_refl.
  - destruct (String.eqb (docker.CName c) name); [discriminate | by apply IH].
Qed.

(** The reference daemon finds again what it has found or created. *)
Lemma Daemon_finds_again : DockerClient.finds_again (D := Daemon).
Proof.
  intros d d1 name found err. cbn. unfold Daemon_InspectContainer.
  destruct (find_container d name) as [c |] eqn:Hfind; intros [= <- <- <-] _.
  rewrite Hfind. by exists d, c, None.
Qed.

Lemma Daemon_finds_created : DockerClient.finds_created (D := Daemon).
Proof.
  intros d d1 opts made. cbn. unfold Daemon_CreateContainer, Daemon_InspectContainer.
  destruct (find_container d (docker.Name opts)) eqn:Hfind; [discriminate |].
  intros [= <- <-].
  rewrite (find_container_app d
             {| docker.CID := String.append "id-" (docker.Name opts);
                docker.CName := docker.Name opts |}
             (docker.Name opts) Hfind eq_refl).
  by eexists _, _, None.
Qed.

(** C1 at work: [FROM] an image with two [ONBUILD] triggers, as the second of
    four steps. *)
Lemma Run_splices_injected_commands_witness :
  run_outcome (run 10 onbuild_plan (build0 None false)) = Returned None
  ∧ visited (run_events (run 10 onbuild_plan (build0 None false)))
    = [StepEnv "A=1"; StepFrom "base" ["RUN x"; "RUN y"];
       StepRun "RUN x"; StepRun "RUN y";
       StepNoop; StepRun "z"].
Proof.
  edestruct (Run_splices_injected_commands parseOnbuildCommands NewPlan
               10 1 onbuild_plan (StepFrom "base" ["RUN x"; "RUN y"])
               [StepRun "RUN x"; StepRun "RUN y"] ["RUN x"; "RUN y"]
               (build0 None false))
    as (Hout & _ & Hvisited & _).
  - reflexivity.
  - reflexivity.
  - reflexivity.
  - reflexivity.
  - discriminate.
  - reflexivity.
  - reflexivity.
  - reflexivity.
  - reflexivity.
  - cbn. lia.
  - split; [exact Hout | exact Hvisited].
Defined.

(** C4 at work.  A guarded step refuses to run after one step ran: [Run]
    returns its error and the step after it is never looked at.  A step
    that is not due is passed over and the step after it fails in
    [Execute]: [Run] returns that error and the last step is never looked
    at. *)
Lemma Run_abort_and_skip_witness :
  run 10 [StepEnv "A=1"; StepGuarded "no"; StepRun "z"] (build0 None false)
  = {| run_events := [EvShouldRun (StepEnv "A=1") (Ok true);
                      EvExecute (StepEnv "A=1") None;
                      EvShouldRun (StepGuarded "no") (Err (ExtError "no"))];
       run_build := set_state (build0 None false)
                      {| Config := {| docker.Image := EmptyString;
                                      docker.Env := ["A=1"];
                                      docker.Volumes := [] |};
                         ImageID := EmptyString;
                         NoCache := blank;
                         InjectCommands := [];
                         Commits := [] |};
       run_outcome := Returned (Some (ExtError "no")) |}
  ∧ run 10 [StepNoop; StepFail "boom"; StepEnv "A=1"] (build0 None false)
    = prepend [EvShouldRun StepNoop (Ok false)]
        (Run_loop parseOnbuildCommands NewPlan 9 1
           [StepNoop; StepFail "boom"; StepEnv "A=1"] (build0 None false))
  ∧ run 10 [StepNoop; StepFail "boom"; StepEnv "A=1"] (build0 None false)
    = {| run_events := [EvShouldRun StepNoop (Ok false);
                        EvShouldRun (StepFail "boom") (Ok true);
                        EvExecute (StepFail "boom") (Some (ExtError "boom"))];
         run_build := build0 None false;
         run_outcome := Returned (Some (ExtError "boom")) |}.
Proof.
  pose (plan1 := [StepEnv "A=1"; StepGuarded "no"; StepRun "z"]).
  pose (plan2 := [StepNoop; StepFail "boom"; StepEnv "A=1"]).
  pose (b0 := build0 None false).
  pose (b1 := set_state b0
                {| Config := {| docker.Image := EmptyString;
                                docker.Env := ["A=1"];
                                docker.Volumes := [] |};
                   ImageID := EmptyString;
                   NoCache := blank;
                   InjectCommands := [];
                   Commits := [] |}).
  pose proof (loop_start parseOnbuildCommands NewPlan plan1 b0) as R10.
  pose proof (loop_next parseOnbuildCommands NewPlan plan1 b0 0 plan1 b0 []
                (StepEnv "A=1") _ _ None R10 eq_refl eq_refl) as R11.
  pose proof (loop_start parseOnbuildCommands NewPlan plan2 b0) as R20.
  pose proof (loop_next parseOnbuildCommands NewPlan plan2 b0 0 plan2 b0 []
                StepNoop _ _ None R20 eq_refl eq_refl) as R21.
  destruct (Run_abort_and_skip parseOnbuildCommands NewPlan 10 plan1 b0) as (H1 & _).
  destruct (Run_abort_and_skip parseOnbuildCommands NewPlan 10 plan2 b0) as (H2 & _).
  refine (conj _ (conj _ _)).
  - destruct (H1 1 _ _ _ (StepGuarded "no") b1 R11 eq_refl ltac:(lia)) as (Hrefused & _).
    exact (Hrefused (ExtError "no") eq_refl).
  - destruct (H2 0 _ _ _ StepNoop b0 R20 eq_refl ltac:(lia)) as (_ & Hskipped & _).
    exact (Hskipped eq_refl).
  - destruct (H2 1 _ _ _ (StepFail "boom") b0 R21 eq_refl ltac:(lia)) as (_ & _ & Hdue).
    destruct (Hdue b0 state0 (Some (ExtError "boom")) eq_refl eq_refl) as (_ & Hfailed).
    exact (Hfailed (ExtError "boom") eq_refl).
Defined.

(** C2 at work: a busted state short-circuits, and a miss busts. *)
Lemma probeCache_sticky_bust_witness :
  probeCache (build0 None false) before
  = Build_Probe [] (build0 None false) before false None
  ∧ probe_hit (probeCache (build0 (Some (store false)) false) state0) = false.
Proof.
  split.
  - apply (proj1 (probeCache_sticky_bust (build0 None false) before)).
    left. reflexivity.
  - destruct (proj2 (probeCache_sticky_bust (build0 (Some (store false)) false) state0)
                (store false) (store false))
      as (_ & _ & Hhit & _);
      [reflexivity | reflexivity | vm_compute; reflexivity | exact Hhit].
Defined.

(** C3 at work. *)
Lemma probeCache_hit_postcondition_witness :
  NoCache (probe_state (probeCache (build0 (Some (store false)) false) before))
  = NoCache before
  ∧ Commits (probe_state (probeCache (build0 (Some (store false)) false) before)) = [].
Proof.
  edestruct (probeCache_hit_postcondition (build0 (Some (store false)) false) before
               (store false) (store false) cached)
    as (_ & _ & Hnocache & Hcommits & _).
  - reflexivity.
  - reflexivity.
  - reflexivity.
  - reflexivity.
  - reflexivity.
  - split; [exact Hnocache | exact Hcommits].
Defined.

(** C5: on a store that cannot delete, in reload mode, [Del] is called and
    answers an error, and [probeCache] returns no error. *)
Lemma probeCache_drops_Del_error :
  probe_calls (probeCache (build0 (Some (store true)) true) before)
  = [CallGet before; CallDel cached]
  ∧ snd (Del (store true) cached) = Some (ExtError "read-only file system")
  ∧ probe_err (probeCache (build0 (Some (store true)) true) before) = None
  ∧ probe_err (probeCache (build0 (Some (store true)) true) before)
    ≠ snd (Del (store true) cached).
Proof. repeat split. discriminate. Qed.

Lemma probeCache_cache_errors_witness :
  probe_err (probeCache (build0 (Some (store true)) true) before) = None
  ∧ probe_hit (probeCache (build0 (Some (store true)) true) before) = false.
Proof.
  destruct (proj2 (probeCache_cache_errors (build0 (Some (store true)) true) before)
              cached) as (Herr & Hhit & _).
  - cbn. apply elem_of_cons. right. apply elem_of_cons. left. reflexivity.
  - split; [exact Herr | exact Hhit].
Defined.

(** C6 at work: after the probe the store has no entry left, and no
    lookup answers the old one. *)
Lemma probeCache_reload_witness :
  cache (probe_build (probeCache (build0 (Some (store false)) true) before))
  = Some {| entries := []; read_only := false |}
  ∧ probe_hit (probeCache (build0 (Some (store false)) true) before) = false
  ∧ probe_err (probeCache (build0 (Some (store false)) true) before) = None
  ∧ ∀ k, snd (Get {| entries := []; read_only := false |} k) ≠ Ok (Some cached).
Proof.
  edestruct (probeCache_reload (build0 (Some (store false)) true) before
               (store false) (store false) cached
               {| entries := []; read_only := false |} None)
    as (_ & Hcache & _ & _ & Hhit & Herr & Habsent).
  - reflexivity.
  - reflexivity.
  - reflexivity.
  - reflexivity.
  - reflexivity.
  - refine (conj Hcache (conj Hhit (conj Herr _))).
    exact (Habsent eq_refl MemCache_Del_evicts).
Defined.

(** C6 against the code: in reload mode, on a store that cannot delete,
    the lookup hits, [Del] is called on the entry found and fails; the
    probe answers [hit = false] and no error, and the old entry is still in
    the store of the build: the next lookup of the same state answers
    it. *)
Lemma probeCache_reload_keeps_entry :
  BuildConfig.ReloadCache (cfg (build0 (Some (store true)) true)) = true
  ∧ snd (Get (store true) before) = Ok (Some cached)
  ∧ probe_calls (probeCache (build0 (Some (store true)) true) before)
    = [CallGet before; CallDel cached]
  ∧ snd (Del (store true) cached) = Some (ExtError "read-only file system")
  ∧ probe_hit (probeCache (build0 (Some (store true)) true) before) = false
  ∧ probe_err (probeCache (build0 (Some (store true)) true) before) = None
  ∧ CacheBusted
      (NoCache (probe_state (probeCache (build0 (Some (store true)) true) before)))
    = true
  ∧ cache (probe_build (probeCache (build0 (Some (store true)) true) before))
    = Some (store true)
  ∧ snd (Get (store true) before) = Ok (Some cached)
  ∧ ¬ (∀ k, snd (Get (store true) k) ≠ Ok (Some cached)).
Proof.
  split_and!; try (vm_compute; reflexivity).
  intros Habsent. apply (Habsent before). vm_compute. reflexivity.
Qed.

(** C7 at work: the first call creates the volume container, the second
    finds it. *)
Lemma EnsureContainer_idempotent_witness :
  ∃ c2 calls1,
    DockerClient.EnsureContainer
      (fst (DockerClient.EnsureContainer (client (build0 None false))
              "rocker_mount_1f3a" (Config cached) "/src"))
      "rocker_mount_1f3a" (Config cached) "/src"
    = (c2, ("id-rocker_mount_1f3a", None))
    ∧ DockerClient.creates (calls1 ++ [ApiInspectContainer "rocker_mount_1f3a"]) ≤ 1.
Proof.
  edestruct (proj2 (EnsureContainer_idempotent (client (build0 None false))
                      "rocker_mount_1f3a" (Config cached) "/src")
               Daemon_finds_again Daemon_finds_created)
    as (c2 & calls1 & Hsecond & _ & _ & _ & Hcreates).
  - reflexivity.
  - exists c2, calls1. split; [exact Hsecond | exact Hcreates].
Defined.

(** C9 at work: the removal fails, the process exits all the same. *)
Lemma RunContainer_interrupt_witness :
  coord_exit (RunContainer tty (answers Interrupt (Some (ExtError "gone")))
                "4f5e6d7c8b9a" false)
  = OsExit 2%Z.
Proof.
  refine (proj1 (RunContainer_interrupt tty (answers Interrupt (Some (ExtError "gone")))
                   "4f5e6d7c8b9a" false _ eq_refl eq_refl eq_refl)).
  discriminate.
Defined.

(** C10 at work. *)
Lemma RunContainer_non_tty_witness :
  RunContainer pipe (answers (WaitDone 0 None) None) "4f5e6d7c8b9a" true
  = Build_Coordination [] pipe (Return (Some ErrNonTty)).
Proof.
  apply (RunContainer_non_tty pipe (answers (WaitDone 0 None) None) "4f5e6d7c8b9a").
  reflexivity.
Defined.

End Examples.

(** * Further properties *)

(** ** The cache probe, branch by branch *)

Section ProbeMore.

Context {C E : Type} `{!Cache C} `{!Client E}.

Implicit Types (b : Build C E) (s : State).

Lemma probeCache_stale b s c c1 s2 e1 c2 derr :
  cache b = Some c →
  CacheBusted (NoCache s) = false →
  Get c s = (c1, Ok (Some s2)) →
  BuildConfig.ReloadCache (cfg b) = false →
  InspectImage (client b) (ImageID s2) = (e1, Ok None) →
  Del c1 s2 = (c2, derr) →
  probeCache b s
  = Build_Probe [CallGet s; CallInspectImage (ImageID s2); CallDel s2]
                (set_cache (set_client (set_cache b c1) e1) c2)
                (set_CacheBusted s true) false None.
Proof.
  intros Hc Hfresh Hget Hreload Himg Hdel.
  unfold probeCache. rewrite Hc, Hfresh, Hget, Hreload. cbn [set_cache client].
  rewrite Himg, Hdel. reflexivity.
Qed.

(** X1. Stale entry.  When the store answers an entry, reload mode is off
    and the engine no longer has the image of the entry, [probeCache] calls
    [Del] on that entry (after [Get] and the inspection), returns the input
    state with [CacheBusted] set, [hit = false] and no error, whatever [Del]
    answers; the store of the build is the one [Del] leaves and the sizes of
    the build are not touched. *)
Theorem probeCache_stale_image b s c c1 s2 e1 c2 derr :
  cache b = Some c →
  CacheBusted (NoCache s) = false →
  Get c s = (c1, Ok (Some s2)) →
  BuildConfig.ReloadCache (cfg b) = false →
  InspectImage (client b) (ImageID s2) = (e1, Ok None) →
  Del c1 s2 = (c2, derr) →
  probe_calls (probeCache b s)
  = [CallGet s; CallInspectImage (ImageID s2); CallDel s2]
  ∧ probe_state (probeCache b s) = set_CacheBusted s true
  ∧ probe_hit (probeCache b s) = false
  ∧ probe_err (probeCache b s) = None
  ∧ cache (probe_build (probeCache b s)) = Some c2
  ∧ ProducedSize (probe_build (probeCache b s)) = ProducedSize b
  ∧ VirtualSize (probe_build (probeCache b s)) = VirtualSize b.
Proof.
  intros Hc Hfresh Hget Hreload Himg Hdel.
  rewrite (probeCache_stale b s c c1 s2 e1 c2 derr Hc Hfresh Hget Hreload Himg Hdel).
  split_and!; reflexivity.
Qed.

(** X2. Engine failure during the probe.  When the inspection of the cached
    image fails, [probeCache] returns that error together with the input
    state and [hit = true]; the entry is kept ([Del] is not called) and
    [CacheBusted] is not set. *)
Theorem probeCache_inspect_error b s c c1 s2 e1 e :
  cache b = Some c →
  CacheBusted (NoCache s) = false →
  Get c s = (c1, Ok (Some s2)) →
  BuildConfig.ReloadCache (cfg b) = false →
  InspectImage (client b) (ImageID s2) = (e1, Err e) →
  probe_err (probeCache b s) = Some e
  ∧ probe_hit (probeCache b s) = true
  ∧ probe_state (probeCache b s) = s
  ∧ probe_calls (probeCache b s) = [CallGet s; CallInspectImage (ImageID s2)]
  ∧ cache (probe_build (probeCache b s)) = Some c1.
Proof.
  intros Hc Hfresh Hget Hreload Himg.
  unfold probeCache. rewrite Hc, Hfresh, Hget, Hreload. cbn [set_cache client].
  rewrite Himg. repeat split.
Qed.

(** Case analysis on the path [probeCache] takes. *)
Ltac probe_paths b s :=
  unfold probeCache;
  destruct (cache b) as [?c |]; [| cbn];
  [destruct (CacheBusted (NoCache s)) eqn:?Hbusted; [cbn |];
   [| destruct (Get _ s) as [?c [[?s2 |] | ?e]] eqn:?Hget; [| cbn | cbn];
      [destruct (BuildConfig.ReloadCache (cfg b)) eqn:?Hreload;
       [destruct (Del _ _) as [?c ?derr] eqn:?Hdel; cbn
       | destruct (InspectImage _ _) as [?e [[?img |] | ?e]] eqn:?Himg;
         [cbn | destruct (Del _ _) as [?c ?derr] eqn:?Hdel; cbn | cbn]] | ..]] |].

(** X3. Frame.  [probeCache] never changes the configuration, the state or
    the export list of the build; and unless it returns a hit without error
    it leaves the two size counters as they were. *)
Theorem probeCache_frame b s :
  cfg (probe_build (probeCache b s)) = cfg b
  ∧ state (probe_build (probeCache b s)) = state b
  ∧ exports (probe_build (probeCache b s)) = exports b
  ∧ (¬ (probe_hit (probeCache b s) = true ∧ probe_err (probeCache b s) = None) →
     ProducedSize (probe_build (probeCache b s)) = ProducedSize b
     ∧ VirtualSize (probe_build (probeCache b s)) = VirtualSize b).
Proof.
  probe_paths b s;
    (split; [done | split; [done | split; [done |]]]);
    intros Hnot; try done.
  exfalso. apply Hnot. done.
Qed.

(** X4. The no-cache record through a probe.  On every path the state
    returned carries the container identifier and the host configuration of
    the input state, and [CacheBusted] is never cleared: a busted input gives
    a busted output. *)
Theorem probeCache_keeps_NoCache b s :
  ContainerID (NoCache (probe_state (probeCache b s))) = ContainerID (NoCache s)
  ∧ HostConfig (NoCache (probe_state (probeCache b s))) = HostConfig (NoCache s)
  ∧ (CacheBusted (NoCache s) = true →
     CacheBusted (NoCache (probe_state (probeCache b s))) = true).
Proof.
  probe_paths b s; repeat split; try done.
Qed.

(** X5. A hit is genuine.  Whenever [probeCache] answers [hit = true]
    without an error, a store is configured, the input was not busted, reload
    mode is off, [Get] answered an entry and the engine has its image; the
    state returned is that entry with the input's no-cache record and no
    commit intent; the produced size has grown by the size of the image (in
    [int64]) and the virtual size is that of the image; [Del] was not
    called. *)
Theorem probeCache_hit_is_genuine b s :
  probe_hit (probeCache b s) = true →
  probe_err (probeCache b s) = None →
  ∃ c c1 s2 e1 img,
    cache b = Some c
    ∧ CacheBusted (NoCache s) = false
    ∧ BuildConfig.ReloadCache (cfg b) = false
    ∧ Get c s = (c1, Ok (Some s2))
    ∧ InspectImage (client b) (ImageID s2) = (e1, Ok (Some img))
    ∧ probe_state (probeCache b s) = CleanCommits (set_NoCache s2 (NoCache s))
    ∧ ProducedSize (probe_build (probeCache b s))
      = add64 (ProducedSize b) (docker.Size img)
    ∧ VirtualSize (probe_build (probeCache b s)) = docker.VirtualSize img
    ∧ probe_calls (probeCache b s) = [CallGet s; CallInspectImage (ImageID s2)].
Proof.
  probe_paths b s; try discriminate.
  intros _ _. eexists _, _, _, _, _. repeat split; eauto.
Qed.

(** X6. What is deleted.  When [probeCache] calls [Del], it is its last
    call and the only [Del]; the entry deleted is the one that [Get] has just
    answered for the state, and the run is in reload mode or the engine has
    no image for the entry. *)
Theorem probeCache_deletes_what_it_found b s x :
  CallDel x ∈ probe_calls (probeCache b s) →
  (∃ pre, probe_calls (probeCache b s) = pre ++ [CallDel x]
          ∧ ∀ y, CallDel y ∉ pre)
  ∧ ∃ c c1,
      cache b = Some c
      ∧ Get c s = (c1, Ok (Some x))
      ∧ (BuildConfig.ReloadCache (cfg b) = true
         ∨ ∃ e1, InspectImage (client b) (ImageID x) = (e1, Ok None)).
Proof.
  probe_paths b s; intros Hin;
    repeat (apply elem_of_cons in Hin as [Heq | Hin]; simplify_eq);
    try (by apply elem_of_nil in Hin).
  - split; [| by eauto 10].
    eexists [_]. split; [reflexivity |].
    intros y Hy. apply list_elem_of_singleton in Hy. discriminate.
  - split; [| by eauto 10].
    eexists [_; _]. split; [reflexivity |].
    intros y Hy. apply elem_of_cons in Hy as [Hy | Hy]; [discriminate |].
    apply list_elem_of_singleton in Hy. discriminate.
Qed.

End ProbeMore.

(** ** The Docker client, path by path *)

Section DockerClientMore.

Context {D : Type} `{!DockerAPI D}.

Implicit Types (c : DockerClient.t D) (config : docker.Config).

(** X7. What [EnsureContainer] asks of the engine, whatever the outcome.
    The first call is the inspection of the name; at most one create is
    issued, and it is for the name and the configuration given; an
    identifier is never returned together with an error. *)
Theorem EnsureContainer_calls c name config purpose c1 id err :
  DockerClient.EnsureContainer c name config purpose = (c1, (id, err)) →
  ∃ calls,
    DockerClient.api_calls c1
    = DockerClient.api_calls c ++ ApiInspectContainer name :: calls
    ∧ DockerClient.creates calls ≤ 1
    ∧ (∀ opts, ApiCreateContainer opts ∈ calls →
         opts = {| docker.Name := name; docker.OptConfig := config |})
    ∧ (is_Some err → id = EmptyString).
Proof.
  unfold DockerClient.EnsureContainer.
  destruct (api_InspectContainer (DockerClient.api c) name) as [d [found e]].
  destruct (DockerClient.other_than DockerClient.is_NoSuchContainer e).
  { intros [= <- <- <-]. exists []. split_and!; cbn; [done | lia | | done].
    intros opts Hin. by apply elem_of_nil in Hin. }
  destruct found as [found |].
  { intros [= <- <- <-]. exists []. split_and!; cbn; [done | lia | |].
    - intros opts Hin. by apply elem_of_nil in Hin.
    - intros [? [=]]. }
  destruct (DockerClient.EnsureImage _ (docker.Image config)) as [c2 err2] eqn:Himage.
  destruct (EnsureImage_calls _ _ _ _ Himage) as (calls & Hcalls & Hnone).
  cbn in Hcalls.
  assert (Hnocreate : ∀ opts, ApiCreateContainer opts ∉ calls).
  { intros opts Hin. unfold DockerClient.creates in Hnone.
    apply length_zero_iff_nil in Hnone.
    assert (In (ApiCreateContainer opts) (List.filter DockerClient.is_create calls)) as Hf.
    { apply List.filter_In. split; [by apply list_elem_of_In | done]. }
    rewrite Hnone in Hf. destruct Hf. }
  destruct err2 as [e2 |].
  { intros [= <- <- <-]. exists calls. rewrite Hcalls, <- app_assoc.
    split_and!; [done | lia | | done].
    intros opts Hin. by destruct (Hnocreate opts). }
  assert (Hopts : ∀ opts,
            opts ∈ calls ++ [ApiCreateContainer
                               {| docker.Name := name; docker.OptConfig := config |}] →
            ∀ o, opts = ApiCreateContainer o →
            o = {| docker.Name := name; docker.OptConfig := config |}).
  { intros call Hin o ->. apply elem_of_app in Hin as [Hin | Hin];
      [by destruct (Hnocreate o) |].
    apply list_elem_of_singleton in Hin. by simplify_eq. }
  destruct (api_CreateContainer (DockerClient.api c2) _) as [d3 [made | e3]];
    intros [= <- <- <-]; cbn [DockerClient.called DockerClient.api_calls];
    rewrite Hcalls, <- !app_assoc; cbn [app];
    (eexists; split; [reflexivity |]);
    rewrite creates_app, Hnone; cbn; (split; [lia |]); split.
  - intros opts Hin. by eapply Hopts.
  - intros [? [=]].
  - intros opts Hin. by eapply Hopts.
  - done.
Qed.

End DockerClientMore.

(** ** The provisioner on the Docker client *)

Section ProvisionerOnDocker.

Context {C D : Type} `{!Cache C} `{!DockerAPI D}.

Implicit Types (b : Build C (DockerClient.t D)).

Variable mountsContainerName : Build C (DockerClient.t D) -> string -> string.
Variable exportsContainerName : Build C (DockerClient.t D) -> string.

(** X8. The volume container is provisioned once.  On an engine that
    finds again what it has found or created under a name, and with a naming
    function that does not look at the client, a call of
    [getVolumeContainer] that succeeds is followed by a second call for the
    same path that returns the same name, no error, and issues one
    inspection and no create.  What is returned is the name of the
    container, not its identifier. *)
Theorem getVolumeContainer_twice b path b1 name :
  DockerClient.finds_again (D := D) →
  DockerClient.finds_created (D := D) →
  (∀ b' e, mountsContainerName (set_client b' e) path = mountsContainerName b' path) →
  getVolumeContainer mountsContainerName b path = (b1, (name, None)) →
  name = mountsContainerName b path
  ∧ ∃ b2,
      getVolumeContainer mountsContainerName b1 path = (b2, (name, None))
      ∧ DockerClient.api_calls (client b2)
        = DockerClient.api_calls (client b1) ++ [ApiInspectContainer name].
Proof.
  intros Hagain Hcreated Hname. unfold getVolumeContainer. cbn [EnsureContainer DockerClient_Client].
  destruct (DockerClient.EnsureContainer (client b) _ _ path) as [e [id err]] eqn:Hfirst.
  intros [= <- <- ->]. split; [reflexivity |].
  destruct (EnsureContainer_success _ _ _ _ _ _ Hagain Hcreated Hfirst)
    as ((d2 & found & err & Hinspect & Hbenign & Hid) & _).
  rewrite Hname. cbn [client set_client].
  rewrite (EnsureContainer_found e _ _ path _ _ _ Hinspect Hbenign).
  eexists. split; reflexivity.
Qed.

(** X9. The exports container is provisioned once.  Under the same
    conditions a call of [getExportsContainer] that succeeds is followed by
    a second call that returns the same container identifier, no error, and
    issues one inspection and no create. *)
Theorem getExportsContainer_twice b b1 id :
  DockerClient.finds_again (D := D) →
  DockerClient.finds_created (D := D) →
  (∀ b' e, exportsContainerName (set_client b' e) = exportsContainerName b') →
  getExportsContainer exportsContainerName b = (b1, (id, None)) →
  ∃ b2,
    getExportsContainer exportsContainerName b1 = (b2, (id, None))
    ∧ DockerClient.api_calls (client b2)
      = DockerClient.api_calls (client b1)
        ++ [ApiInspectContainer (exportsContainerName b)].
Proof.
  intros Hagain Hcreated Hname. unfold getExportsContainer.
  cbn [EnsureContainer DockerClient_Client].
  destruct (DockerClient.EnsureContainer (client b) _ _ "exports") as [e [cid err]] eqn:Hfirst.
  destruct err; intros [= <- <-].
  destruct (EnsureContainer_success _ _ _ _ _ _ Hagain Hcreated Hfirst)
    as ((d2 & found & err & Hinspect & Hbenign & Hid) & _).
  rewrite Hname. cbn [client set_client].
  rewrite (EnsureContainer_found e _ _ "exports" _ _ _ Hinspect Hbenign).
  rewrite Hid. eexists. split; reflexivity.
Qed.

(** X10. A vanished image is a miss, not an error.  With the Docker client
    as the engine, when the store answers an entry, reload mode is off and
    the daemon answers "no such image" for the entry's image, [probeCache]
    returns no error and [hit = false], sets [CacheBusted], and deletes the
    entry. *)
Theorem probeCache_image_not_found b s (c c1 c2 : C) s2 d1 img derr :
  cache b = Some c →
  CacheBusted (NoCache s) = false →
  Get c s = (c1, Ok (Some s2)) →
  BuildConfig.ReloadCache (cfg b) = false →
  api_InspectImage (DockerClient.api (client b)) (ImageID s2)
    = (d1, (img, Some ErrNoSuchImage)) →
  Del c1 s2 = (c2, derr) →
  probe_err (probeCache b s) = None
  ∧ probe_hit (probeCache b s) = false
  ∧ probe_state (probeCache b s) = set_CacheBusted s true
  ∧ probe_calls (probeCache b s)
    = [CallGet s; CallInspectImage (ImageID s2); CallDel s2]
  ∧ cache (probe_build (probeCache b s)) = Some c2.
Proof.
  intros Hc Hfresh Hget Hreload Himg Hdel.
  assert (Hclient : InspectImage (client b) (ImageID s2)
                    = (DockerClient.called (client b) d1 (ApiInspectImage (ImageID s2)),
                       Ok None)).
  { cbn [InspectImage DockerClient_Client]. unfold DockerClient.InspectImage.
    rewrite Himg. reflexivity. }
  rewrite (probeCache_stale b s c c1 s2 _ c2 derr Hc Hfresh Hget Hreload Hclient Hdel).
  split_and!; reflexivity.
Qed.

End ProvisionerOnDocker.

(** ** The plan executor, further *)

Section RunMore.

Context {C E : Type} `{!Cache C} `{!Client E}.
Context {Cmd ConfigCommand : Type} `{!Command C E Cmd}.
Variable parseOnbuildCommands : list string -> result (list ConfigCommand).
Variable NewPlan : list ConfigCommand -> bool -> result (list Cmd).

Local Abbreviation iter := (Run_iter parseOnbuildCommands NewPlan).
Local Abbreviation loop := (Run_loop parseOnbuildCommands NewPlan).
Local Abbreviation run := (Run parseOnbuildCommands NewPlan).
Local Abbreviation quietly := (runs_quietly parseOnbuildCommands NewPlan).

Implicit Types (b : Build C E) (c : Cmd) (plan cs : list Cmd)
  (evs : list (RunEvent Cmd)).

(** The run up to a step reached through quiet steps. *)
Lemma Run_reaches (fuel k : nat) plan c b0 b1 ev0 :
  plan !! k = Some c →
  quietly (take k plan) b0 = Some (ev0, b1) →
  k < fuel →
  run fuel plan b0 = prepend ev0 (loop (fuel - k) k plan b1)
  ∧ visited ev0 = take k plan
  ∧ ∃ fuel', fuel - k = S fuel'.
Proof.
  intros Hk Hq0 Hfuel.
  assert (Hlen : k < length plan) by (by eapply lookup_lt_Some).
  pose proof (Run_loop_quiet parseOnbuildCommands NewPlan
                (take k plan) [] (c :: drop (S k) plan) b0 ev0 b1
                (fuel - k) Hq0) as H0.
  rewrite length_take_le in H0 by lia. cbn [app length Nat.add] in H0.
  rewrite take_drop_middle in H0 by done.
  replace (k + (fuel - k)) with fuel in H0 by lia.
  split_and!; [exact H0 | |].
  - by destruct (runs_quietly_lists parseOnbuildCommands NewPlan _ _ _ _ Hq0).
  - exists (fuel - k - 1). lia.
Qed.

(** X11. A plan without injection.  When no step of the plan fails or
    injects, [Run], given more fuel than the plan has steps, returns no
    error after visiting each step once, in plan order; it executes exactly
    the steps whose [ShouldRun] answered [true]. *)
Theorem Run_without_injection (fuel : nat) plan b evs b' :
  quietly plan b = Some (evs, b') →
  length plan < fuel →
  run fuel plan b = Build_RunResult evs b' (Returned None)
  ∧ visited evs = plan
  ∧ executed evs = due evs.
Proof.
  intros Hq Hfuel.
  destruct (runs_quietly_lists parseOnbuildCommands NewPlan _ _ _ _ Hq) as (Hv & Hx & _).
  split_and!; [| exact Hv | exact Hx].
  pose proof (Run_loop_quiet parseOnbuildCommands NewPlan plan [] [] b evs b'
                (fuel - length plan) Hq) as H0.
  cbn [app length Nat.add] in H0. rewrite app_nil_r in H0.
  replace (length plan + (fuel - length plan)) with fuel in H0 by lia.
  unfold Run. rewrite H0.
  destruct (fuel - length plan) as [| f] eqn:Hf; [lia |].
  cbn [Run_loop]. rewrite lookup_ge_None_2 by lia.
  unfold prepend. cbn. by rewrite app_nil_r.
Qed.

(** X12. A step that fails.  When the steps before step [k] run quietly and
    the [Execute] of step [k] answers an error, [Run] returns that error;
    the build it leaves has, as its state, the state [Execute] returned along
    with the error; the steps visited are steps [0..k] and nothing of the
    injection queue of that state is looked at. *)
Theorem Run_execute_failure (fuel k : nat) plan c b0 b1 b1' b2 (s : State) e ev0 :
  plan !! k = Some c →
  quietly (take k plan) b0 = Some (ev0, b1) →
  ShouldRun c b1 = (b1', Ok true) →
  Execute (fst (replace_env c (docker.Env (Config (state b1'))))) b1' = (b2, (s, Some e)) →
  k < fuel →
  run_outcome (run fuel plan b0) = Returned (Some e)
  ∧ run_build (run fuel plan b0) = set_state b2 s
  ∧ state (run_build (run fuel plan b0)) = s
  ∧ visited (run_events (run fuel plan b0)) = take (S k) plan.
Proof.
  intros Hk Hq0 Hshould Hexec Hfuel.
  destruct (Run_reaches fuel k plan c b0 b1 ev0 Hk Hq0 Hfuel) as (-> & Hv0 & f & ->).
  cbn [Run_loop]. rewrite Hk. unfold Run_iter. rewrite Hshould.
  destruct (replace_env c (docker.Env (Config (state b1')))) as [c' evr] eqn:Henv.
  cbn [fst] in Hexec. rewrite Hexec.
  cbn [prepend run_outcome run_build run_events state set_state].
  split_and!; try reflexivity.
  rewrite visited_app, Hv0, (take_S_r _ _ _ Hk). f_equal.
  pose proof (replace_env_replaced c (docker.Env (Config (state b1')))) as Hr.
  rewrite Henv in Hr. cbn in Hr. unfold visited.
  destruct Hr as [-> | [env ->]]; reflexivity.
Qed.

(** X13. An injection that cannot be planned.  When step [k] is executed
    and leaves a non-empty injection queue that [parseOnbuildCommands]
    rejects, or whose parsed commands [NewPlan] rejects, [Run] returns that
    error, visits no further step, and the state keeps its injection
    queue. *)
Theorem Run_bad_injection (fuel k : nat) plan c b0 b1 b1' b2 (s : State) e ev0 :
  plan !! k = Some c →
  quietly (take k plan) b0 = Some (ev0, b1) →
  ShouldRun c b1 = (b1', Ok true) →
  Execute (fst (replace_env c (docker.Env (Config (state b1'))))) b1' = (b2, (s, None)) →
  InjectCommands s ≠ [] →
  (parseOnbuildCommands (InjectCommands s) = Err e
   ∨ ∃ commands, parseOnbuildCommands (InjectCommands s) = Ok commands
                 ∧ NewPlan commands false = Err e) →
  k < fuel →
  run_outcome (run fuel plan b0) = Returned (Some e)
  ∧ InjectCommands (state (run_build (run fuel plan b0))) = InjectCommands s
  ∧ run_build (run fuel plan b0) = set_state b2 s
  ∧ visited (run_events (run fuel plan b0)) = take (S k) plan.
Proof.
  intros Hk Hq0 Hshould Hexec Hinj Hbad Hfuel.
  destruct (Run_reaches fuel k plan c b0 b1 ev0 Hk Hq0 Hfuel) as (-> & Hv0 & f & ->).
  cbn [Run_loop]. rewrite Hk. unfold Run_iter. rewrite Hshould.
  pose proof (replace_env_replaced c (docker.Env (Config (state b1')))) as Hr.
  destruct (replace_env c (docker.Env (Config (state b1')))) as [c' evr] eqn:Henv.
  cbn [fst snd] in *. rewrite Hexec. cbn [state set_state].
  destruct (InjectCommands s) as [| i q] eqn:Hs; [done |].
  assert (Hvis : visited (ev0 ++ EvShouldRun c (Ok true) :: evr ++ [EvExecute c None])
                 = take (S k) plan).
  { rewrite visited_app, Hv0, (take_S_r _ _ _ Hk). f_equal. unfold visited.
    destruct Hr as [-> | [env ->]]; reflexivity. }
  destruct Hbad as [Hparse | (commands & Hparse & Hplan)]; rewrite Hparse; [| rewrite Hplan];
    cbn [prepend run_outcome run_build run_events state set_state];
    rewrite ?Hs; split_and!; done.
Qed.

(** X14. The environment a step is rewritten with.  A step that is due and
    can have its environment replaced is handed the environment of the
    state current when its turn comes, that is the one the steps before it
    have left, and it is the rewritten step that is executed. *)
Theorem Run_replaces_env_before_execute
    (fuel k : nat) plan c (f : list string → Cmd) b0 b1 b1' ev0 :
  plan !! k = Some c →
  quietly (take k plan) b0 = Some (ev0, b1) →
  ShouldRun c b1 = (b1', Ok true) →
  ReplaceEnv c = Some f →
  k < fuel →
  ∃ rest,
    run_events (run fuel plan b0)
    = ev0 ++ EvShouldRun c (Ok true)
          :: EvReplaceEnv c (docker.Env (Config (state b1')))
          :: EvExecute c (snd (snd (Execute (f (docker.Env (Config (state b1')))) b1')))
          :: rest.
Proof.
  intros Hk Hq0 Hshould Hf Hfuel.
  destruct (Run_reaches fuel k plan c b0 b1 ev0 Hk Hq0 Hfuel) as (-> & _ & fuel' & ->).
  cbn [Run_loop]. rewrite Hk. unfold Run_iter, replace_env. rewrite Hshould, Hf.
  destruct (Execute (f (docker.Env (Config (state b1')))) b1') as [b2 [s [e |]]];
    cbn [fst snd state set_state].
  { exists []. reflexivity. }
  destruct (InjectCommands s) as [| i q].
  { eexists. cbn. reflexivity. }
  destruct (parseOnbuildCommands (i :: q)) as [commands | e].
  2: { exists []. reflexivity. }
  destruct (NewPlan commands false) as [subPlan | e].
  2: { exists []. reflexivity. }
  eexists. cbn. reflexivity.
Qed.

End RunMore.

(** ** The interactive run coordinator, on all paths *)

Section RunContainerMore.

Implicit Types (h : Host) (a : Answers) (containerID : string).

(** Case analysis on everything the coordinator looks at. *)
Ltac coord_paths h a attachStdin :=
  unfold RunContainer, attach_start_wait, select, run_deferred, wait_message;
  destruct attachStdin, h as [[] mode], a as [[?e |] [] [?e |] [?e |] [status [?e |] | cause |] [?e |]];
  cbn [andb negb stdin_is_terminal terminal set_raw hijacked start monitor fired removal
       set_terminal coord_events coord_host coord_exit fst snd app];
  try destruct (status =? 0)%Z eqn:?Hstatus;
  cbn [coord_events coord_host coord_exit fst snd app].

Ltac no_such_event Hin :=
  repeat (apply elem_of_cons in Hin as [Hin | Hin]; [try discriminate Hin; simplify_eq |]);
  try (by apply elem_of_nil in Hin).

(** X15. Removal and process exit happen on interrupt only.  Whatever the
    inputs, [RunContainer] attempts to remove a container only when its
    [select] received the interrupt, and then it is the container it was
    given and the process exits with status 2; and the process never exits
    in any other case or with any other status. *)
Theorem RunContainer_removes_only_on_interrupt h a containerID attachStdin :
  (∀ x, EvRemoveContainer x ∈ coord_events (RunContainer h a containerID attachStdin) →
     x = containerID
     ∧ fired a = Interrupt
     ∧ coord_exit (RunContainer h a containerID attachStdin) = OsExit 2%Z)
  ∧ (∀ code, coord_exit (RunContainer h a containerID attachStdin) = OsExit code →
       code = 2%Z
       ∧ fired a = Interrupt
       ∧ EvRemoveContainer containerID
           ∈ coord_events (RunContainer h a containerID attachStdin)).
Proof.
  split.
  - intros x. coord_paths h a attachStdin; intros Hin; no_such_event Hin; done.
  - intros code. coord_paths h a attachStdin; intros [= <-];
      (split_and!; [done | done |]); rewrite !elem_of_cons; auto 10.
Qed.

(** X16. Success means exit status 0.  [RunContainer] returns no error only
    when the attach reported the hijack, the container was started, and the
    [select] received the end of the wait with status 0 and no error; and
    then it has marked the run as finished. *)
Theorem RunContainer_nil_means_exit_zero h a containerID attachStdin :
  coord_exit (RunContainer h a containerID attachStdin) = Return None →
  fired a = WaitDone 0 None
  ∧ hijacked a = true
  ∧ start a = None
  ∧ EvStartContainer containerID ∈ coord_events (RunContainer h a containerID attachStdin)
  ∧ EvFinished ∈ coord_events (RunContainer h a containerID attachStdin).
Proof.
  coord_paths h a attachStdin; intros [=];
    try apply Z.eqb_eq in Hstatus; subst;
    (split_and!; [done | done | done | |]); rewrite !elem_of_cons; auto 12.
Qed.

(** X17. What the end of the wait is turned into.  When the call has reached
    its [select] and receives the end of the wait: an error of
    [WaitContainer] is returned as it is, whatever the status; without such
    an error a status other than 0 is returned as an error that names the
    container and the status.  In both cases the run has been marked as
    finished, no removal is attempted and the process does not exit. *)
Theorem RunContainer_wait_result h a containerID attachStdin statusCode err :
  (attachStdin = true →
     stdin_is_terminal h = true ∧ set_raw a = None ∧ monitor a = None) →
  hijacked a = true →
  start a = None →
  fired a = WaitDone statusCode err →
  coord_exit (RunContainer h a containerID attachStdin)
  = Return (match err with
            | Some e => Some e
            | None => if (statusCode =? 0)%Z then None
                      else Some (ErrExitCode containerID statusCode)
            end)
  ∧ EvFinished ∈ coord_events (RunContainer h a containerID attachStdin)
  ∧ ∀ x, EvRemoveContainer x ∉ coord_events (RunContainer h a containerID attachStdin).
Proof.
  intros Hattach Hhijacked Hstart Hfired.
  destruct (RunContainer_reaches_select h a containerID attachStdin
              Hattach Hhijacked Hstart) as (pre & deferred & h1 & Hrun & _ & _).
  split; [by rewrite Hrun; unfold select, wait_message; rewrite Hfired |].
  clear Hrun pre deferred h1. revert Hattach Hhijacked Hstart Hfired.
  coord_paths h a attachStdin; intros Hattach Hhijacked Hstart Hfired;
    try discriminate; try (by destruct (Hattach eq_refl) as (? & ? & ?));
    (split; [rewrite !elem_of_cons; auto 12 |]);
    intros x Hin; no_such_event Hin.
Qed.

(** X18. Without attached input the terminal is left alone.  With
    [attachStdin] false, on every path, no terminal call is made, the host
    is as before, and whether standard input is a terminal makes no
    difference to the outcome. *)
Theorem RunContainer_detached_leaves_terminal h h' a containerID :
  coord_host (RunContainer h a containerID false) = h
  ∧ (EvSetRawTerminal ∉ coord_events (RunContainer h a containerID false))
  ∧ (∀ m, EvRestoreTerminal m ∉ coord_events (RunContainer h a containerID false))
  ∧ coord_exit (RunContainer h a containerID false)
    = coord_exit (RunContainer h' a containerID false)
  ∧ coord_events (RunContainer h a containerID false)
    = coord_events (RunContainer h' a containerID false).
Proof.
  destruct h' as [tty' mode'].
  unfold RunContainer. cbn [andb].
  destruct (attach_start_wait a containerID false) as [evs exit] eqn:Hrun.
  assert (Hquiet : (EvSetRawTerminal ∉ evs) ∧ ∀ m, EvRestoreTerminal m ∉ evs).
  { revert Hrun. unfold attach_start_wait, select.
    destruct a as [[?e |] [] [?e |] [?e |] [status [?e |] | cause |] [?e |]];
      cbn; intros [= <- <-]; (split; [| intros m]); intros Hin; no_such_event Hin. }
  destruct exit; cbn; rewrite ?app_nil_r; split_and!; try done; apply Hquiet.
Qed.

(** X19. No start before the hijack.  [StartContainer] is issued only when
    the attach has reported that it hijacked the connection, and the attach
    has then been issued before it; a call whose attach never reports is left
    blocked, or has returned an error before attaching. *)
Theorem RunContainer_starts_after_hijack h a containerID attachStdin :
  (∀ x, EvStartContainer x ∈ coord_events (RunContainer h a containerID attachStdin) →
     x = containerID
     ∧ hijacked a = true
     ∧ ∃ pre post,
         coord_events (RunContainer h a containerID attachStdin)
         = pre ++ EvAttachToContainer containerID attachStdin
               :: EvStartContainer containerID :: post)
  ∧ (hijacked a = false →
     coord_exit (RunContainer h a containerID attachStdin) = Blocked
     ∨ ∃ e, coord_exit (RunContainer h a containerID attachStdin) = Return (Some e)
            ∧ ∀ x s, EvAttachToContainer x s
                       ∉ coord_events (RunContainer h a containerID attachStdin)).
Proof.
  split.
  - intros x. coord_paths h a attachStdin; intros Hin; no_such_event Hin;
      (split_and!; [done | done |]);
      first [ by eexists [], _ | by eexists [_], _ ].
  - coord_paths h a attachStdin; intros [=]; auto;
      right; eexists; (split; [reflexivity |]); intros x s Hin; no_such_event Hin.
Qed.

(** X20. A call that returns leaves the host as it found it.  Whatever the
    inputs, when [RunContainer] returns, with or without an error, the
    terminal is in the mode it was in before the call; and when the call had
    put the terminal in raw mode, restoring it was its last action. *)
Theorem RunContainer_return_leaves_host h a containerID attachStdin err :
  coord_exit (RunContainer h a containerID attachStdin) = Return err →
  coord_host (RunContainer h a containerID attachStdin) = h
  ∧ (set_raw a = None →
     EvSetRawTerminal ∈ coord_events (RunContainer h a containerID attachStdin) →
     ∃ evs, coord_events (RunContainer h a containerID attachStdin)
            = evs ++ [EvRestoreTerminal (terminal h)]).
Proof.
  coord_paths h a attachStdin; intros [=]; (split; [reflexivity |]);
    intros Hraw Hin; try discriminate Hraw; no_such_event Hin;
    first [ by eexists [_; _; _]
          | by eexists [_; _; _; _]
          | by eexists [_; _; _; _; _; _]
          | by eexists [_; _; _; _; _; _; _] ].
Qed.

End RunContainerMore.

(** ** Build variables *)

Section VarsProperties.

Import template.

Implicit Types (vars : Vars) (pairs : list string) (k v : string).

Lemma cut_None s : cut s = None ↔ has_eq s = false.
Proof.
  unfold has_eq. induction s as [| ch s IH]; cbn; [done |].
  destruct (Ascii.eqb ch "=") eqn:Hch; cbn; [split; discriminate |].
  destruct (cut s) as [[before after] |]; [| done].
  split; [discriminate |]. intros Hno. by apply IH in Hno.
Qed.

Lemma cut_middle k v : has_eq k = false → cut (String.append k (String "=" v)) = Some (k, v).
Proof.
  unfold has_eq. induction k as [| ch k IH]; cbn [String.append cut has_char].
  - intros _. reflexivity.
  - destruct (Ascii.eqb ch "=") eqn:Hch; cbn [orb]; [discriminate |].
    intros Hno.
    change (String.append (String ch k) (String "=" v))
      with (String ch (String.append k (String "=" v))).
    cbn [cut]. by rewrite Hch, (IH Hno).
Qed.

Lemma SplitN2_pair k v :
  has_eq k = false → SplitN2 (String.append k (String "=" v)) = [k; v].
Proof. intros Hk. unfold SplitN2. by rewrite cut_middle. Qed.

Lemma ParseKvPairs_from_app vars pairs1 pairs2 :
  ParseKvPairs_from vars (pairs1 ++ pairs2)
  = match ParseKvPairs_from vars pairs1 with
    | Done vars1 => ParseKvPairs_from vars1 pairs2
    | Panic => Panic
    end.
Proof.
  revert vars. induction pairs1 as [| p pairs1 IH]; intros vars; cbn; [done |].
  destruct (SplitN2 p) as [| key [| value tmp]]; cbn; try done.
Qed.

(** X21. When [ParseKvPairs] panics.  The call panics exactly when one of
    the pairs has no [=] sign; an empty list parses to the empty map. *)
Theorem ParseKvPairs_panics_iff pairs :
  (ParseKvPairs pairs = Panic ↔ ∃ p, p ∈ pairs ∧ has_eq p = false)
  ∧ ParseKvPairs [] = Done ∅.
Proof.
  split; [| reflexivity]. unfold ParseKvPairs. generalize (∅ : Vars).
  induction pairs as [| p pairs IH]; intros vars; cbn.
  - split; [discriminate |]. intros (p & Hin & _). by apply elem_of_nil in Hin.
  - unfold SplitN2. destruct (cut p) as [[before after] |] eqn:Hcut; cbn.
    + rewrite IH. split; intros (q & Hin & Hq).
      * exists q. split; [by right | done].
      * apply elem_of_cons in Hin as [-> | Hin]; [| by eauto].
        apply cut_None in Hq. congruence.
    + split; [| done]. intros _. exists p. split; [by left |]. by apply cut_None.
Qed.

(** X22. A later pair wins, and only the first [=] splits.  Adding the pair
    [k=v] at the end of a list that parses gives the same map with [k] bound
    to [v], whatever was bound to [k] before and whatever [=] signs [v]
    holds. *)
Theorem ParseKvPairs_last_wins pairs vars k v :
  has_eq k = false →
  ParseKvPairs pairs = Done vars →
  ParseKvPairs (pairs ++ [String.append k (String "=" v)])
  = Done (<[k := VString v]> vars)
  ∧ ∀ vars', ParseKvPairs (pairs ++ [String.append k (String "=" v)]) = Done vars' →
             vars' !! k = Some (VString v).
Proof.
  intros Hk Hparse. unfold ParseKvPairs in *.
  rewrite ParseKvPairs_from_app, Hparse. cbn. rewrite SplitN2_pair by done. cbn.
  split; [done |]. intros vars' [= <-]. apply lookup_insert_eq.
Qed.

(** The order of Go strings is a total order. *)
Local Instance string_le_total : Total string_le.
Proof. intros s1 s2. unfold string_le. apply String.leb_total. Qed.

Local Instance string_le_antisym : AntiSymm (=) string_le.
Proof. intros s1 s2. unfold string_le. apply String.leb_antisym. Qed.

Local Instance string_le_trans : Transitive string_le.
Proof.
  intros s1 s2 s3. unfold string_le, String.leb.
  destruct (String.compare s1 s2) eqn:H12; [| | discriminate].
  - apply OrderedTypeEx.String_as_OT.cmp_eq in H12. by subst.
  - destruct (String.compare s2 s3) eqn:H23; [| | discriminate]; intros _ _.
    + apply OrderedTypeEx.String_as_OT.cmp_eq in H23. subst. by rewrite H12.
    + apply OrderedTypeEx.String_as_OT.cmp_lt in H12, H23.
      pose proof (OrderedTypeEx.String_as_OT.lt_trans _ _ _ H12 H23) as H13.
      apply OrderedTypeEx.String_as_OT.cmp_lt in H13.
      unfold OrderedTypeEx.String_as_OT.cmp in H13. by rewrite H13.
Qed.

(** X23. [ToStrings] does not depend on the order of the map.  Whatever the
    order in which the map is walked, the result is the same list; it is
    sorted and has one string for each key. *)
Theorem ToStrings_stable (range1 range2 : Vars → list (string * Value)) vars :
  (∀ m, range1 m ≡ₚ map_to_list m) →
  (∀ m, range2 m ≡ₚ map_to_list m) →
  ToStrings range1 vars = ToStrings range2 vars
  ∧ Sorted string_le (ToStrings range1 vars)
  ∧ length (ToStrings range1 vars) = size vars.
Proof.
  intros H1 H2. unfold ToStrings. split_and!.
  - apply (Sorted_unique string_le); [apply Sorted_merge_sort, _ .. |].
    rewrite !merge_sort_Permutation. by rewrite H1, H2.
  - apply Sorted_merge_sort, _.
  - rewrite merge_sort_Permutation, length_fmap, H1. apply length_map_to_list.
Qed.

End VarsProperties.

Section VarsMaps.

Import template.

Implicit Types (vars m : Vars) (pairs : list string) (k : string).

(** A loop that visits each key once and rewrites the entry under that key
    gives a map that does not depend on the order of the visit. *)
Lemma foldl_rewrite_lookup (g : option Value → Value → Value)
    (l : list (string * Value)) : ∀ (acc : Vars) k,
  NoDup l.*1 →
  foldl (λ acc kv, <[fst kv := g (acc !! fst kv) (snd kv)]> acc) acc l !! k
  = match (list_to_map l : Vars) !! k with
    | Some v => Some (g (acc !! k) v)
    | None => acc !! k
    end.
Proof.
  induction l as [| [k0 v0] l IH]; intros acc k Hnodup; cbn; [done |].
  apply NoDup_cons in Hnodup as [Hfresh Hnodup].
  rewrite IH by done. destruct (decide (k0 = k)) as [-> | Hne].
  - rewrite lookup_insert_eq, (not_elem_of_list_to_map_1 l k Hfresh).
    by rewrite lookup_insert_eq.
  - by rewrite !lookup_insert_ne.
Qed.

Lemma range_as_map (range : Vars → list (string * Value)) m :
  range m ≡ₚ map_to_list m →
  NoDup (range m).*1 ∧ (list_to_map (range m) : Vars) = m.
Proof.
  intros Hperm. assert (Hnodup : NoDup (range m).*1).
  { rewrite Hperm. apply NoDup_fst_map_to_list. }
  split; [done |].
  rewrite (list_to_map_proper _ _ Hnodup Hperm). apply list_to_map_to_list.
Qed.

Lemma Merge_with_lookup (range : Vars → list (string * Value)) vars m k :
  range m ≡ₚ map_to_list m →
  Merge_with range vars m !! k
  = match m !! k with
    | Some v => Some (merge_value (vars !! k) v)
    | None => vars !! k
    end.
Proof.
  intros Hperm. destruct (range_as_map range m Hperm) as [Hnodup Hmap].
  unfold Merge_with. rewrite (foldl_rewrite_lookup merge_value) by done.
  by rewrite Hmap.
Qed.

(** X24. What [Merge] leaves under a key, whatever the order in which the
    merged map is walked: the old entry when the merged map has none; the
    new value when it has one, except that two slices of one type are
    appended, old items first. *)
Theorem Merge_lookup (range : Vars → list (string * Value)) vars m k :
  (∀ m', range m' ≡ₚ map_to_list m') →
  (m !! k = None → Merge range vars [m] !! k = vars !! k)
  ∧ (∀ v, m !! k = Some v → Merge range vars [m] !! k = Some (merge_value (vars !! k) v))
  ∧ (∀ s, m !! k = Some (VString s) → Merge range vars [m] !! k = Some (VString s))
  ∧ (∀ t items1 items2,
       vars !! k = Some (VSlice t items1) →
       m !! k = Some (VSlice t items2) →
       Merge range vars [m] !! k = Some (VSlice t (items1 ++ items2))).
Proof.
  intros Hperm. cbn [Merge foldl]. rewrite Merge_with_lookup by done.
  split_and!.
  - by intros ->.
  - by intros v ->.
  - intros s ->. by destruct (vars !! k) as [[] |].
  - intros t items1 items2 -> ->. cbn. by rewrite String.eqb_refl.
Qed.

(** X25. Merging never loses a key.  A key is set after [Merge] exactly
    when it was set in the receiver or in one of the merged maps. *)
Theorem Merge_IsSet (range : Vars → list (string * Value)) vars (ms : list Vars) k :
  (∀ m', range m' ≡ₚ map_to_list m') →
  IsSet (Merge range vars ms) k = IsSet vars k || existsb (λ m, IsSet m k) ms.
Proof.
  intros Hperm. revert vars. induction ms as [| m ms IH]; intros vars; cbn.
  - by rewrite orb_false_r.
  - unfold Merge in IH. rewrite IH. rewrite orb_assoc. f_equal.
    unfold IsSet. rewrite Merge_with_lookup by done.
    destruct (m !! k), (vars !! k); reflexivity.
Qed.

(** The string [ToStrings] makes of an entry, and its reading by
    [ParseKvPairs]. *)
Lemma entry_has_eq k (v : Value) :
  has_eq (String.append k (String.append "=" (format_s v))) = true.
Proof.
  unfold has_eq. change (String.append "=" (format_s v)) with (String "=" (format_s v)).
  induction k as [| ch k IH]; [reflexivity |].
  change (String.append (String ch k) (String "=" (format_s v)))
    with (String ch (String.append k (String "=" (format_s v)))).
  cbn [has_char]. rewrite IH. apply orb_true_r.
Qed.

Lemma ParseKvPairs_from_good pairs : ∀ vars,
  Forall (λ p, has_eq p = true) pairs →
  ParseKvPairs_from vars pairs
  = Done (foldl (λ acc kv, <[fst kv := (λ _ v, v) (acc !! fst kv) (snd kv)]> acc)
                vars (omap parse_pair pairs)).
Proof.
  induction pairs as [| p pairs IH]; intros vars Hgood; cbn; [done |].
  apply Forall_cons in Hgood as [Hp Hgood].
  unfold SplitN2, parse_pair.
  destruct (cut p) as [[before after] |] eqn:Hcut.
  - cbn. by rewrite IH.
  - apply cut_None in Hcut. congruence.
Qed.

Lemma read_entries (kvs : list (string * Value)) :
  Forall (λ kv, has_eq (fst kv) = false ∧ ∃ s, snd kv = VString s) kvs →
  omap parse_pair (entry_string <$> kvs) = kvs.
Proof.
  induction 1 as [| [k v] kvs [Hk [s Hv]] _ IH]; [done |].
  cbn in Hk, Hv. subst v.
  cbn [fmap list_fmap omap list_omap]. unfold entry_string at 1, parse_pair at 1.
  cbn [fst snd format_s]. change (String.append "=" s) with (String "=" s).
  rewrite (cut_middle k s Hk). f_equal. exact IH.
Qed.

(** X26. [ToStrings] then [ParseKvPairs] gives the map back.  For a map
    whose values are strings and whose keys hold no [=] sign, parsing the
    strings that [ToStrings] returns does not panic and rebuilds the map,
    whatever the order in which the map was walked. *)
Theorem ParseKvPairs_ToStrings (range : Vars → list (string * Value)) vars :
  (∀ m', range m' ≡ₚ map_to_list m') →
  (∀ k v, vars !! k = Some v → has_eq k = false ∧ ∃ s, v = VString s) →
  ParseKvPairs (ToStrings range vars) = Done vars.
Proof.
  intros Hperm Hgood. unfold ParseKvPairs, ToStrings.
  set (l := merge_sort string_le (entry_string <$> range vars)).
  assert (Hl : l ≡ₚ entry_string <$> map_to_list vars).
  { unfold l. by rewrite merge_sort_Permutation, Hperm. }
  rewrite ParseKvPairs_from_good.
  2: { rewrite Hl. apply Forall_fmap, Forall_forall. intros [k v] _. apply entry_has_eq. }
  f_equal.
  assert (Hparsed : omap parse_pair l ≡ₚ map_to_list vars).
  { rewrite Hl, read_entries; [done |]. apply Forall_forall. intros [k v] Hin.
    apply elem_of_map_to_list in Hin. by apply Hgood. }
  apply map_eq. intros k.
  rewrite (foldl_rewrite_lookup (λ _ v, v)).
  2: { rewrite Hparsed. apply NoDup_fst_map_to_list. }
  rewrite (list_to_map_proper _ (map_to_list vars)), list_to_map_to_list.
  - rewrite lookup_empty. by destruct (vars !! k).
  - rewrite Hparsed. apply NoDup_fst_map_to_list.
  - done.
Qed.

End VarsMaps.

Section VarsFromStringsProperties.

Import template.

Variable range : Vars -> list (string * Value).
Variable HOME : string.
Variable Getwd : Result string.
Variable Join : string -> string -> string.
Variable ReadFile : string -> Result string.

Local Abbreviation load := (loadFileContent HOME Getwd Join ReadFile).
Local Abbreviation entries := (load_entries HOME Getwd Join ReadFile).
Local Abbreviation loaded := (loaded_value HOME Getwd Join ReadFile).
Local Abbreviation from_strings := (VarsFromStrings range HOME Getwd Join ReadFile).

Implicit Types (vars : Vars) (pairs : list string) (k : string).

Lemma at_is_not_escaped (s : string) :
  String.prefix "@" s = true → String.prefix "\@" s = false.
Proof.
  destruct s as [| ch s]; [discriminate |]. cbn [String.prefix].
  destruct (ascii_dec "@" ch) as [<- |]; [| discriminate]. reflexivity.
Qed.

Lemma load_entries_ok (l : list (string * Value)) : ∀ vars,
  NoDup l.*1 →
  (∀ k v, (k, v) ∈ l → vars !! k = Some v) →
  (∀ k v, (k, v) ∈ l → ∃ v', loaded v = Success v') →
  ∃ vars',
    entries vars l = (vars', None)
    ∧ ∀ k, vars' !! k
           = match (list_to_map l : Vars) !! k with
             | Some v => match loaded v with
                         | Success v' => Some v'
                         | Failure _ => None
                         end
             | None => vars !! k
             end.
Proof.
  induction l as [| [k0 v0] l IH]; intros vars Hnodup Hin Hok.
  { exists vars. by split. }
  apply NoDup_cons in Hnodup as [Hfresh Hnodup].
  assert (Hrest : ∀ vars1,
            (∀ k, k ≠ k0 → vars1 !! k = vars !! k) →
            ∀ k v, (k, v) ∈ l → vars1 !! k = Some v).
  { intros vars1 Hsame k v Hkv. rewrite Hsame; [apply Hin; by right |].
    intros ->. apply Hfresh. apply list_elem_of_fmap. by exists (k0, v). }
  assert (Hokrest : ∀ k v, (k, v) ∈ l → ∃ v', loaded v = Success v').
  { intros k v Hkv. apply (Hok k v). by right. }
  assert (Hhere : vars !! k0 = Some v0) by (apply Hin; by left).
  destruct (Hok k0 v0) as [v0' Hv0]; [by left |].
  assert (Hfinish : ∀ vars1,
            (∀ k, k ≠ k0 → vars1 !! k = vars !! k) →
            vars1 !! k0 = Some v0' →
            ∃ vars',
              entries vars1 l = (vars', None)
              ∧ ∀ k, vars' !! k
                     = match (list_to_map ((k0, v0) :: l) : Vars) !! k with
                       | Some v => match loaded v with
                                   | Success v' => Some v'
                                   | Failure _ => None
                                   end
                       | None => vars !! k
                       end).
  { intros vars1 Hsame Hk0.
    destruct (IH vars1 Hnodup (Hrest vars1 Hsame) Hokrest) as (vars' & Hrun & Hlook).
    exists vars'. split; [done |]. intros k. rewrite Hlook. cbn [list_to_map foldr].
    destruct (decide (k = k0)) as [-> | Hne].
    - rewrite lookup_insert_eq, (not_elem_of_list_to_map_1 l k0 Hfresh). cbn.
      by rewrite Hv0.
    - rewrite lookup_insert_ne by done. cbn. rewrite Hsame by done. done. }
  destruct v0 as [s | t items | r]; cbn [load_entries]; cbn [loaded_value] in Hv0.
  - destruct (String.prefix "@" s) eqn:Hat.
    + destruct (load (tail1 s)) as [content | e]; [| discriminate].
      injection Hv0 as <-. rewrite (at_is_not_escaped s Hat).
      apply Hfinish; [intros k Hne; by rewrite lookup_insert_ne | apply lookup_insert_eq].
    + destruct (String.prefix "\@" s); injection Hv0 as <-.
      * apply Hfinish; [intros k Hne; by rewrite lookup_insert_ne | apply lookup_insert_eq].
      * by apply Hfinish.
  - injection Hv0 as <-. by apply Hfinish.
  - injection Hv0 as <-. by apply Hfinish.
Qed.

(** X27. [VarsFromStrings] when every file can be read.  For pairs that
    parse, and when the content of every file named by a value of the form
    [@file] can be loaded, the call returns no error and, whatever the order
    in which the map is walked: a value [@file] has become the content of
    the file, a value that starts with an escaped [@] has lost its backslash,
    any other value is as parsed. *)
Theorem VarsFromStrings_loads pairs vars :
  (∀ m', range m' ≡ₚ map_to_list m') →
  ParseKvPairs pairs = Done vars →
  (∀ k v, vars !! k = Some v → ∃ v', loaded v = Success v') →
  ∃ vars',
    from_strings pairs = Done (vars', None)
    ∧ ∀ k, vars' !! k
           = match vars !! k with
             | Some (VString s) =>
                 if String.prefix "@" s then
                   match load (tail1 s) with
                   | Success content => Some (VString content)
                   | Failure _ => None
                   end
                 else if String.prefix "\@" s then Some (VString (tail1 s))
                 else Some (VString s)
             | other => other
             end.
Proof.
  intros Hperm Hparse Hok. unfold VarsFromStrings. rewrite Hparse.
  destruct (range_as_map range vars (Hperm vars)) as [Hnodup Hmap].
  assert (Hin : ∀ k v, (k, v) ∈ range vars → vars !! k = Some v).
  { intros k v Hkv. rewrite Hperm in Hkv. by apply elem_of_map_to_list. }
  destruct (load_entries_ok (range vars) vars Hnodup Hin) as (vars' & Hrun & Hlook).
  { intros k v Hkv. apply (Hok k v), Hin, Hkv. }
  exists vars'. split; [by rewrite Hrun |].
  intros k. rewrite Hlook, Hmap.
  destruct (vars !! k) as [[s | t items | r] |]; cbn [loaded_value]; try done.
  destruct (String.prefix "@" s); [by destruct (load (tail1 s)) |].
  by destruct (String.prefix "\@" s).
Qed.

Lemma load_entries_failure (l : list (string * Value)) : ∀ vars vars' err,
  entries vars l = (vars', Some err) →
  ∃ k s e,
    (k, VString s) ∈ l
    ∧ String.prefix "@" s = true
    ∧ load (tail1 s) = Failure e
    ∧ err = ReadVarError (tail1 s) k e
    ∧ vars' !! k = Some (VString EmptyString).
Proof.
  induction l as [| [k0 v0] l IH]; intros vars vars' err; cbn [load_entries];
    [discriminate |].
  assert (Hlater : ∀ vars1,
            entries vars1 l = (vars', Some err) →
            ∃ k s e,
              (k, VString s) ∈ (k0, v0) :: l
              ∧ String.prefix "@" s = true
              ∧ load (tail1 s) = Failure e
              ∧ err = ReadVarError (tail1 s) k e
              ∧ vars' !! k = Some (VString EmptyString)).
  { intros vars1 Hrun. destruct (IH _ _ _ Hrun) as (k & s & e & Hin & Hrest).
    exists k, s, e. split; [by right | done]. }
  destruct v0 as [s | t items | r]; [| by apply Hlater ..].
  destruct (String.prefix "@" s) eqn:Hat; [| by apply Hlater].
  destruct (load (tail1 s)) as [content | e] eqn:Hload; [by apply Hlater |].
  intros [= <- <-]. exists k0, s, e.
  split_and!; [by left | done | done | done | apply lookup_insert_eq].
Qed.

(** X28. [VarsFromStrings] when a file cannot be read.  An error returned by
    the call is always the wrapping of a failed load: it names a key whose
    parsed value is [@] followed by the file, and the file; and in the map
    returned along with the error that key holds the empty string. *)
Theorem VarsFromStrings_failure pairs vars vars' err :
  (∀ m', range m' ≡ₚ map_to_list m') →
  ParseKvPairs pairs = Done vars →
  from_strings pairs = Done (vars', Some err) →
  ∃ k s e,
    vars !! k = Some (VString s)
    ∧ String.prefix "@" s = true
    ∧ load (tail1 s) = Failure e
    ∧ err = ReadVarError (tail1 s) k e
    ∧ vars' !! k = Some (VString EmptyString).
Proof.
  intros Hperm Hparse. unfold VarsFromStrings. rewrite Hparse.
  intros [= Hrun].
  destruct (load_entries_failure _ _ _ _ Hrun) as (k & s & e & Hin & Hrest).
  exists k, s, e. split; [| done].
  rewrite Hperm in Hin. by apply elem_of_map_to_list.
Qed.

End VarsFromStringsProperties.

(** ** Wildcards, and the command line *)

Section SmallFunctions.

Import template rocker_main.

Lemma containsWildcards_sound_pair (name : string) :
  (containsWildcards name = true → has_char is_wildcard name = true)
  ∧ ∀ ch, containsWildcards (String ch name) = true →
          has_char is_wildcard (String ch name) = true.
Proof.
  induction name as [| ch0 name [IH0 IH1]].
  - split; [discriminate |]. intros ch. cbn. unfold is_wildcard.
    destruct (Ascii.eqb ch "\"); [discriminate |].
    by destruct (Ascii.eqb ch "*" || Ascii.eqb ch "?" || Ascii.eqb ch "[").
  - split; [apply IH1 |]. intros ch.
    cbn [containsWildcards]. cbn [has_char] in *.
    destruct (Ascii.eqb ch "\").
    + intros Hrest. rewrite (IH0 Hrest). by rewrite !orb_true_r.
    + fold (is_wildcard ch). destruct (is_wildcard ch); [done |].
      cbn [orb]. apply IH1.
Qed.

Lemma containsWildcards_plain (name : string) :
  has_char (λ ch, Ascii.eqb ch "\") name = false →
  containsWildcards name = has_char is_wildcard name.
Proof.
  induction name as [| ch name IH]; [done |]. cbn [has_char containsWildcards].
  destruct (Ascii.eqb ch "\"); cbn [orb]; [discriminate |].
  intros Hno. fold (is_wildcard ch). destruct (is_wildcard ch); [done |].
  cbn [orb]. by apply IH.
Qed.

(** X29. What [containsWildcards] sees.  It answers [true] only for a name
    that holds one of [*], [?], [[]; for a name without backslash it answers
    [true] exactly then; and the character after a backslash that follows a
    plain stretch without wildcards is skipped, whatever it is. *)
Theorem containsWildcards_spec (name : string) :
  (containsWildcards name = true → has_char is_wildcard name = true)
  ∧ (has_char (λ ch, Ascii.eqb ch "\") name = false →
     containsWildcards name = has_char is_wildcard name)
  ∧ (∀ plain ch rest,
       has_char (λ ch, Ascii.eqb ch "\") plain = false →
       has_char is_wildcard plain = false →
       name = String.append plain (String "\" (String ch rest)) →
       containsWildcards name = containsWildcards rest).
Proof.
  split_and!.
  - apply containsWildcards_sound_pair.
  - apply containsWildcards_plain.
  - intros plain ch rest Hplain Hnone ->.
    induction plain as [| c plain IH]; [reflexivity |].
    change (String.append (String c plain) (String "\" (String ch rest)))
      with (String c (String.append plain (String "\" (String ch rest)))).
    cbn [has_char] in Hplain, Hnone. cbn [containsWildcards].
    destruct (Ascii.eqb c "\"); [discriminate |].
    fold (is_wildcard c). destruct (is_wildcard c); [discriminate |].
    by apply IH.
Qed.

Lemma Split_colon_plain (s : string) :
  Contains_colon s = false → Split_colon s = [s].
Proof.
  unfold Contains_colon. induction s as [| ch s IH]; [done |]. cbn.
  destruct (Ascii.eqb ch ":"); cbn; [discriminate |]. intros Hs. by rewrite IH.
Qed.

Lemma Split_colon_field (u rest : string) :
  Contains_colon u = false →
  Split_colon (String.append u (String ":" rest)) = u :: Split_colon rest
  ∧ Contains_colon (String.append u (String ":" rest)) = true.
Proof.
  unfold Contains_colon. induction u as [| ch u IH]; [done |].
  change (String.append (String ch u) (String ":" rest))
    with (String ch (String.append u (String ":" rest))).
  cbn [has_char Split_colon]. destruct (Ascii.eqb ch ":"); cbn [orb]; [discriminate |].
  intros Hu. destruct (IH Hu) as [-> ->]. done.
Qed.

(** X30. The reading of [--auth].  Without a colon the parameter gives no
    user and no password.  [user:password] gives both.  A password that
    itself holds a colon is cut at that colon: what follows is dropped. *)
Theorem auth_of_param_fields (user password : string) :
  Contains_colon user = false →
  Contains_colon password = false →
  auth_of_param (String.append user (String ":" password))
  = {| Username := user; Password := password |}
  ∧ (∀ rest,
       auth_of_param
         (String.append user (String ":" (String.append password (String ":" rest))))
       = {| Username := user; Password := password |})
  ∧ auth_of_param user = {| Username := EmptyString; Password := EmptyString |}.
Proof.
  intros Hu Hp. unfold auth_of_param. split_and!.
  - destruct (Split_colon_field user password Hu) as [-> ->].
    by rewrite (Split_colon_plain password Hp).
  - intros rest.
    destruct (Split_colon_field user (String.append password (String ":" rest)) Hu)
      as [-> ->].
    by destruct (Split_colon_field password rest Hp) as [-> _].
  - by rewrite Hu.
Qed.

End SmallFunctions.

(** ** Further worked examples *)

Section MoreExamples.

Import Fixture Samples.

Local Abbreviation run := (Run parseOnbuildCommands NewPlan).

Lemma probeCache_stale_image_witness :
  probe_hit (probeCache pruned_build before) = false
  ∧ probe_err (probeCache pruned_build before) = None
  ∧ ProducedSize (probe_build (probeCache pruned_build before)) = 7%Z.
Proof.
  edestruct (probeCache_stale_image pruned_build before (store false) (store false) cached)
    as (_ & _ & Hhit & Herr & _ & Hsize & _).
  - reflexivity.
  - reflexivity.
  - reflexivity.
  - reflexivity.
  - reflexivity.
  - reflexivity.
  - split_and!; [exact Hhit | exact Herr | exact Hsize].
Defined.

Lemma probeCache_inspect_error_witness :
  probe_err (probeCache offline_build before) = Some (ExtError "connection refused")
  ∧ probe_hit (probeCache offline_build before) = true.
Proof.
  edestruct (probeCache_inspect_error offline_build before (store false) (store false) cached)
    as (Herr & Hhit & _).
  - reflexivity.
  - reflexivity.
  - reflexivity.
  - reflexivity.
  - reflexivity.
  - split; [exact Herr | exact Hhit].
Defined.

Lemma probeCache_frame_witness :
  ProducedSize (probe_build (probeCache pruned_build before)) = 7%Z
  ∧ VirtualSize (probe_build (probeCache pruned_build before)) = 9%Z.
Proof.
  destruct (probeCache_frame pruned_build before) as (_ & _ & _ & Hsizes).
  apply Hsizes. intros [Hhit _]. vm_compute in Hhit. discriminate Hhit.
Defined.

Lemma probeCache_keeps_NoCache_witness :
  CacheBusted (NoCache (probe_state (probeCache (build0 (Some (store false)) false) busted)))
  = true.
Proof.
  destruct (probeCache_keeps_NoCache (build0 (Some (store false)) false) busted)
    as (_ & _ & Hbusted).
  apply Hbusted. reflexivity.
Defined.

Lemma probeCache_hit_is_genuine_witness :
  ∃ s2 img,
    probe_state (probeCache (build0 (Some (store false)) false) before)
    = CleanCommits (set_NoCache s2 (NoCache before))
    ∧ ProducedSize (probe_build (probeCache (build0 (Some (store false)) false) before))
      = add64 0 (docker.Size img).
Proof.
  destruct (probeCache_hit_is_genuine (build0 (Some (store false)) false) before)
    as (c & c1 & s2 & e1 & img & _ & _ & _ & _ & _ & Hstate & Hsize & _).
  - vm_compute. reflexivity.
  - vm_compute. reflexivity.
  - exists s2, img. split; [exact Hstate | exact Hsize].
Defined.

Lemma probeCache_deletes_what_it_found_witness :
  ∃ c c1, cache pruned_build = Some c ∧ Get c before = (c1, Ok (Some cached)).
Proof.
  destruct (probeCache_deletes_what_it_found pruned_build before cached)
    as (_ & c & c1 & Hc & Hget & _).
  - vm_compute. apply elem_of_cons. right. apply elem_of_cons. right.
    apply elem_of_cons. left. reflexivity.
  - exists c, c1. split; [exact Hc | exact Hget].
Defined.

Lemma probeCache_image_not_found_witness :
  probe_err (probeCache pruned_build before) = None
  ∧ probe_hit (probeCache pruned_build before) = false.
Proof.
  edestruct (probeCache_image_not_found pruned_build before
               (store false) (store false) {| entries := []; read_only := false |} cached)
    as (Herr & Hhit & _).
  - reflexivity.
  - reflexivity.
  - reflexivity.
  - reflexivity.
  - reflexivity.
  - reflexivity.
  - split; [exact Herr | exact Hhit].
Defined.

Lemma EnsureContainer_calls_witness :
  ∃ calls,
    DockerClient.api_calls
      (fst (DockerClient.EnsureContainer (client (build0 None false))
              "rocker_mount_1f3a" (Config cached) "/src"))
    = [] ++ ApiInspectContainer "rocker_mount_1f3a" :: calls
    ∧ DockerClient.creates calls ≤ 1.
Proof.
  edestruct (EnsureContainer_calls (client (build0 None false))
               "rocker_mount_1f3a" (Config cached) "/src")
    as (calls & Hcalls & Hcreates & _).
  - reflexivity.
  - exists calls. split; [exact Hcalls | exact Hcreates].
Defined.

Lemma getVolumeContainer_twice_witness :
  ∃ b2,
    getVolumeContainer mount_name
      (fst (getVolumeContainer mount_name (build0 None false) "/src")) "/src"
    = (b2, ("rocker_mount_/src", None)).
Proof.
  edestruct (getVolumeContainer_twice mount_name (build0 None false) "/src")
    as (_ & b2 & Hsecond & _).
  - exact Daemon_finds_again.
  - exact Daemon_finds_created.
  - reflexivity.
  - reflexivity.
  - exists b2. exact Hsecond.
Defined.

Lemma getExportsContainer_twice_witness :
  ∃ b2,
    getExportsContainer exports_name
      (fst (getExportsContainer exports_name (build0 None false)))
    = (b2, ("id-rocker_exports_1f3a", None)).
Proof.
  edestruct (getExportsContainer_twice exports_name (build0 None false))
    as (b2 & Hsecond & _).
  - exact Daemon_finds_again.
  - exact Daemon_finds_created.
  - reflexivity.
  - reflexivity.
  - exists b2. exact Hsecond.
Defined.

Lemma Run_without_injection_witness :
  visited (run_events (run 5 [StepEnv "A=1"; StepNoop; StepRun "make"] (build0 None false)))
  = [StepEnv "A=1"; StepNoop; StepRun "make"].
Proof.
  edestruct (Run_without_injection parseOnbuildCommands NewPlan 5
               [StepEnv "A=1"; StepNoop; StepRun "make"] (build0 None false))
    as (Hrun & Hvisited & _).
  - reflexivity.
  - cbn. lia.
  - rewrite Hrun. exact Hvisited.
Defined.

Lemma Run_execute_failure_witness :
  run_outcome (run 5 [StepEnv "A=1"; StepFail "boom"; StepRun "make"] (build0 None false))
  = Returned (Some (ExtError "boom"))
  ∧ visited (run_events (run 5 [StepEnv "A=1"; StepFail "boom"; StepRun "make"]
                           (build0 None false)))
    = [StepEnv "A=1"; StepFail "boom"].
Proof.
  edestruct (Run_execute_failure parseOnbuildCommands NewPlan 5 1
               [StepEnv "A=1"; StepFail "boom"; StepRun "make"] (StepFail "boom")
               (build0 None false))
    as (Hout & _ & _ & Hvisited).
  - reflexivity.
  - reflexivity.
  - reflexivity.
  - reflexivity.
  - lia.
  - split; [exact Hout | exact Hvisited].
Defined.

Lemma Run_bad_injection_witness :
  run_outcome (run 5 [StepFrom "base" ["RUN x"; EmptyString]; StepRun "make"]
                 (build0 None false))
  = Returned (Some (ExtError "empty ONBUILD instruction"))
  ∧ InjectCommands
      (state (run_build (run 5 [StepFrom "base" ["RUN x"; EmptyString]; StepRun "make"]
                           (build0 None false))))
    = ["RUN x"; EmptyString].
Proof.
  edestruct (Run_bad_injection parseOnbuildCommands NewPlan 5 0
               [StepFrom "base" ["RUN x"; EmptyString]; StepRun "make"]
               (StepFrom "base" ["RUN x"; EmptyString]) (build0 None false))
    as (Hout & Hqueue & _).
  - reflexivity.
  - reflexivity.
  - reflexivity.
  - reflexivity.
  - discriminate.
  - left. reflexivity.
  - lia.
  - split; [exact Hout | exact Hqueue].
Defined.

Lemma Run_replaces_env_before_execute_witness :
  ∃ rest,
    run_events (run 5 [StepEnv "A=1"; StepRun "make"] (build0 None false))
    = [EvShouldRun (StepEnv "A=1") (Ok true); EvExecute (StepEnv "A=1") None]
        ++ EvShouldRun (StepRun "make") (Ok true)
        :: EvReplaceEnv (StepRun "make") ["A=1"]
        :: EvExecute (StepRun "make") None
        :: rest.
Proof.
  edestruct (Run_replaces_env_before_execute parseOnbuildCommands NewPlan 5 1
               [StepEnv "A=1"; StepRun "make"] (StepRun "make")
               (fun env => StepRun (String.concat " " (env ++ ["make"])))
               (build0 None false))
    as (rest & Hevents).
  - reflexivity.
  - reflexivity.
  - reflexivity.
  - reflexivity.
  - lia.
  - exists rest. exact Hevents.
Defined.

Lemma RunContainer_return_leaves_host_witness :
  coord_host (RunContainer tty (answers (WaitDone 3 None) None) "4f5e6d7c8b9a" true) = tty.
Proof.
  refine (proj1 (RunContainer_return_leaves_host tty (answers (WaitDone 3 None) None)
                   "4f5e6d7c8b9a" true (Some (ErrExitCode "4f5e6d7c8b9a" 3)) _)).
  reflexivity.
Defined.

Lemma RunContainer_removes_only_on_interrupt_witness :
  fired (answers Interrupt None) = Interrupt
  ∧ coord_exit (RunContainer tty (answers Interrupt None) "4f5e6d7c8b9a" true) = OsExit 2%Z.
Proof.
  destruct (proj1 (RunContainer_removes_only_on_interrupt tty (answers Interrupt None)
                     "4f5e6d7c8b9a" true) "4f5e6d7c8b9a")
    as (_ & Hfired & Hexit).
  - vm_compute. do 6 (apply elem_of_cons; right). apply elem_of_cons. left. reflexivity.
  - split; [exact Hfired | exact Hexit].
Defined.

Lemma RunContainer_nil_means_exit_zero_witness :
  fired (answers (WaitDone 0 None) None) = WaitDone 0 None
  ∧ EvFinished ∈ coord_events (RunContainer pipe (answers (WaitDone 0 None) None)
                                 "4f5e6d7c8b9a" false).
Proof.
  destruct (RunContainer_nil_means_exit_zero pipe (answers (WaitDone 0 None) None)
              "4f5e6d7c8b9a" false)
    as (Hfired & _ & _ & _ & Hfinished).
  - reflexivity.
  - split; [exact Hfired | exact Hfinished].
Defined.

Lemma RunContainer_wait_result_witness :
  coord_exit (RunContainer pipe (answers (WaitDone 137 None) None) "4f5e6d7c8b9a" false)
  = Return (Some (ErrExitCode "4f5e6d7c8b9a" 137)).
Proof.
  refine (proj1 (RunContainer_wait_result pipe (answers (WaitDone 137 None) None)
                   "4f5e6d7c8b9a" false 137 None _ eq_refl eq_refl eq_refl)).
  discriminate.
Defined.

Lemma RunContainer_detached_leaves_terminal_witness :
  coord_host (RunContainer tty (answers (WaitDone 0 None) None) "4f5e6d7c8b9a" false) = tty
  ∧ coord_exit (RunContainer tty (answers (WaitDone 0 None) None) "4f5e6d7c8b9a" false)
    = coord_exit (RunContainer pipe (answers (WaitDone 0 None) None) "4f5e6d7c8b9a" false).
Proof.
  destruct (RunContainer_detached_leaves_terminal tty pipe (answers (WaitDone 0 None) None)
              "4f5e6d7c8b9a")
    as (Hhost & _ & _ & Hexit & _).
  split; [exact Hhost | exact Hexit].
Defined.

Lemma RunContainer_starts_after_hijack_witness :
  coord_exit (RunContainer pipe
                {| set_raw := None; hijacked := false; start := None; monitor := None;
                   fired := WaitDone 0 None; removal := None |}
                "4f5e6d7c8b9a" false)
  = Blocked.
Proof.
  destruct (proj2 (RunContainer_starts_after_hijack pipe
                     {| set_raw := None; hijacked := false; start := None; monitor := None;
                        fired := WaitDone 0 None; removal := None |}
                     "4f5e6d7c8b9a" false) eq_refl)
    as [Hblocked | (e & Hreturn & _)].
  - exact Hblocked.
  - vm_compute in Hreturn. discriminate Hreturn.
Defined.

Lemma ParseKvPairs_panics_iff_witness :
  template.ParseKvPairs ["A=1"; "B"] = template.Panic.
Proof.
  apply (proj1 (ParseKvPairs_panics_iff ["A=1"; "B"])).
  exists "B". split; [| reflexivity].
  apply elem_of_cons. right. apply elem_of_cons. left. reflexivity.
Defined.

Lemma ParseKvPairs_last_wins_witness :
  template.ParseKvPairs (["A=1"] ++ ["A=x=y"])
  = template.Done (<["A" := template.VString "x=y"]>
                     (<["A" := template.VString "1"]> ∅)).
Proof.
  refine (proj1 (ParseKvPairs_last_wins ["A=1"]
                   (<["A" := template.VString "1"]> ∅) "A" "x=y" eq_refl _)).
  reflexivity.
Defined.

Lemma walk_is_a_listing (m : template.Vars) : walk m ≡ₚ map_to_list m.
Proof. reflexivity. Qed.

Lemma ToStrings_stable_witness :
  template.ToStrings walk version_vars = template.ToStrings (λ m, reverse (walk m)) version_vars.
Proof.
  refine (proj1 (ToStrings_stable walk (λ m, reverse (walk m)) version_vars
                   walk_is_a_listing _)).
  intros m. apply reverse_Permutation.
Defined.

Lemma Merge_lookup_witness :
  template.Merge walk tags [more_tags] !! "tags"
  = Some (template.VSlice "[]string" [template.VString "a"; template.VString "b"]).
Proof.
  destruct (Merge_lookup walk tags more_tags "tags" walk_is_a_listing)
    as (_ & _ & _ & Hslices).
  apply (Hslices "[]string" [template.VString "a"] [template.VString "b"]).
  - apply lookup_singleton_eq.
  - apply lookup_singleton_eq.
Defined.

Lemma Merge_IsSet_witness :
  template.IsSet (template.Merge walk tags [version_vars]) "version" = true.
Proof.
  rewrite (Merge_IsSet walk tags [version_vars] "version" walk_is_a_listing).
  vm_compute. reflexivity.
Defined.

Lemma ParseKvPairs_ToStrings_witness :
  template.ParseKvPairs (template.ToStrings walk version_vars) = template.Done version_vars.
Proof.
  apply (ParseKvPairs_ToStrings walk version_vars walk_is_a_listing).
  intros k v Hlook. unfold version_vars in Hlook.
  apply lookup_singleton_Some in Hlook as [<- <-].
  split; [reflexivity | by eexists].
Defined.

Lemma VarsFromStrings_loads_witness :
  ∃ vars',
    template.VarsFromStrings walk "/home/builder" cwd join one_file ["TOKEN=@/etc/token"]
    = template.Done (vars', None)
    ∧ vars' !! "TOKEN" = Some (template.VString "s3cret").
Proof.
  destruct (VarsFromStrings_loads walk "/home/builder" cwd join one_file
              ["TOKEN=@/etc/token"] token_vars walk_is_a_listing)
    as (vars' & Hrun & Hlook).
  - reflexivity.
  - intros k v Hk. unfold token_vars in Hk.
    apply lookup_singleton_Some in Hk as [<- <-]. by eexists.
  - exists vars'. split; [exact Hrun |]. rewrite Hlook.
    unfold token_vars. rewrite lookup_singleton_eq. reflexivity.
Defined.

Lemma VarsFromStrings_failure_witness :
  ∃ k s e,
    token_vars !! k = Some (template.VString s)
    ∧ template.loadFileContent "/home/builder" cwd join no_file (template.tail1 s)
      = template.Failure e.
Proof.
  destruct (VarsFromStrings_failure walk "/home/builder" cwd join no_file
              ["TOKEN=@/etc/token"] token_vars
              (fst (template.load_entries "/home/builder" cwd join no_file token_vars
                      (walk token_vars)))
              (template.ReadVarError "/etc/token" "TOKEN"
                 (template.OsError "no such file or directory"))
              walk_is_a_listing)
    as (k & s & e & Hk & _ & Hload & _).
  - reflexivity.
  - vm_compute. reflexivity.
  - exists k, s, e. split; [exact Hk | exact Hload].
Defined.

Lemma containsWildcards_spec_witness :
  template.containsWildcards "vars/\*.yml" = template.containsWildcards ".yml".
Proof.
  apply (proj2 (proj2 (containsWildcards_spec "vars/\*.yml")) "vars/" "*"%char ".yml");
    reflexivity.
Defined.

Lemma auth_of_param_fields_witness :
  rocker_main.auth_of_param "ci:pa:ss"
  = {| rocker_main.Username := "ci"; rocker_main.Password := "pa" |}.
Proof.
  destruct (auth_of_param_fields "ci" "pa" eq_refl eq_refl) as (_ & Hcut & _).
  exact (Hcut "ss").
Defined.

End MoreExamples.
